(** * The aml-on-wayland event loop bridge (libweston/backend-vnc/aml-wl-backend.c)

    A shallow embedding of the aml backend that lets the wayland event loop
    (the host loop) drive an aml instance (the inner loop), and the
    properties of its mask translation, its source lifecycle operations and
    its two dispatch relays. *)

From Stdlib Require Import ZArith Lia.
From stdpp Require Import gmap list strings.

Local Open Scope Z_scope.

(** ** Machine integers *)

(** [uint32_t]: a value of Z reduced modulo 2^32. *)
Definition uint32 (z : Z) : Z := z mod 2 ^ 32.

(** ** Constants of the system headers

    [POLLIN] and [POLLOUT] come from <poll.h>, [WL_EVENT_READABLE] and
    [WL_EVENT_WRITABLE] from <wayland-server-core.h>. Neither header is part of
    the repository, so the four values are parameters of the development. *)
Class EventBits : Type := {
  POLLIN : Z;
  POLLOUT : Z;
  WL_EVENT_READABLE : Z;
  WL_EVENT_WRITABLE : Z
}.

(** A constant that is one bit of a 32-bit word. *)
Definition single_bit (c : Z) : Prop := 0 < c < 2 ^ 32 /\ c = 2 ^ Z.log2 c.

(** What the headers guarantee: every constant is one bit, and the two
    constants of one header are different bits. *)
Record EventBitsOk `{EventBits} : Prop := {
  POLLIN_bit : single_bit POLLIN;
  POLLOUT_bit : single_bit POLLOUT;
  POLL_distinct : POLLIN <> POLLOUT;
  READABLE_bit : single_bit WL_EVENT_READABLE;
  WRITABLE_bit : single_bit WL_EVENT_WRITABLE;
  WL_distinct : WL_EVENT_READABLE <> WL_EVENT_WRITABLE
}.

(** The values on Linux with libwayland-server. *)
Definition linux_bits : EventBits :=
  {| POLLIN := 1; POLLOUT := 4; WL_EVENT_READABLE := 1; WL_EVENT_WRITABLE := 2 |}.

(** ** Mask translation *)

Section MaskTranslator.
Context `{EventBits}.

(** [if (in & b) out |= c;] on [uint32_t] operands. *)
Definition or_if_set (in_ b out c : Z) : Z :=
  if Z.eqb (Z.land in_ (uint32 b)) 0 then out else uint32 (Z.lor out c).

(** aml-wl-backend.c:74, from the inner loop's poll bits to the host's. *)
Definition wl_backend_events_from_poll_events (in_ : Z) : Z :=
  let out := 0 in
  let out := or_if_set in_ POLLIN out WL_EVENT_READABLE in
  let out := or_if_set in_ POLLOUT out WL_EVENT_WRITABLE in
  out.

(** aml-wl-backend.c:84, from the host's bits to the inner loop's poll bits. *)
Definition wl_backend_events_to_poll_events (in_ : Z) : Z :=
  let out := 0 in
  let out := or_if_set in_ WL_EVENT_READABLE out POLLIN in
  let out := or_if_set in_ WL_EVENT_WRITABLE out POLLOUT in
  out.

(** The names the specification uses for the two directions. *)
Definition to_abstract : Z -> Z := wl_backend_events_to_poll_events.
Definition to_host : Z -> Z := wl_backend_events_from_poll_events.

(** [x] has no bit outside of [a | b]. *)
Definition only_bits (a b x : Z) : Prop := Z.land x (Z.lor a b) = x.
End MaskTranslator.

(** ** Memory, the inner loop and the host loop

    Addresses are positive numbers, a nullable C pointer is an [option]. *)
Abbreviation ptr := positive.

(** [struct wl_backend_state] (aml-wl-backend.c:40). The fields of the two
    structures keep their C names behind the prefixes [st_] and [esd_]. *)
Record wl_backend_state : Type := {
  st_aml : option ptr;
  st_loop : option ptr
}.

(** [struct event_source_data] (aml-wl-backend.c:45), the bridge entry of one
    registration. *)
Record event_source_data : Type := {
  esd_aml_obj : option ptr;
  esd_state : option ptr;
  esd_src : option ptr
}.

(** Modelled from the spec: the inner loop's watchable objects (aml's
    [struct aml_handler] and [struct aml_signal], which live in libaml). A
    handler has a file descriptor and an interest mask, a signal watcher a
    signal number, and both have the backend-private slot. *)
Inductive aml_obj_kind : Type :=
  | aml_handler (fd : Z) (event_mask : Z)
  | aml_signal (signo : Z).

Record aml_object : Type := {
  obj_kind : aml_obj_kind;
  backend_data : option ptr
}.

(** The calls the bridge makes into the inner loop, in the order made. *)
Inductive aml_call : Type :=
  | call_aml_emit (self obj : ptr) (revents : Z)
  | call_aml_dispatch (self : ptr).

(** The two functions the bridge hands to the host loop as callbacks. *)
Inductive wl_callback : Type :=
  | fn_wl_backend_on_fd_event
  | fn_wl_backend_on_signal.

(** Modelled from the spec: a registration of the host loop (libwayland's
    [struct wl_event_source]): the loop it belongs to, what it watches, and
    the callback and context given when it was added. *)
Inductive wl_source_kind : Type :=
  | wl_fd_source (fd : Z) (mask : Z)
  | wl_signal_source (signo : Z).

Record wl_event_source : Type := {
  source_loop : ptr;
  source_kind : wl_source_kind;
  source_func : wl_callback;
  source_data : option ptr
}.

(** The calls the bridge makes into the host loop, with their results. *)
Inductive wl_call : Type :=
  | call_wl_event_loop_add_fd (loop : ptr) (fd mask : Z) (func : wl_callback)
      (data : option ptr) (result : option ptr)
  | call_wl_event_source_fd_update (source : ptr) (mask : Z) (result : Z)
  | call_wl_event_source_remove (source : ptr)
  | call_wl_event_loop_add_signal (loop : ptr) (signo : Z) (func : wl_callback)
      (data : option ptr) (result : option ptr).

(** Everything the bridge reads or writes. [calloc_script] and [wl_script]
    fix the outcome of the coming allocations and of the coming fallible host
    calls ([false] is a failure, an exhausted script means success). *)
Record world : Type := {
  wl_loop : option ptr;
  states : gmap ptr wl_backend_state;
  entries : gmap ptr event_source_data;
  calloc_script : list bool;
  amls : gmap ptr ptr;
  aml_objs : gmap ptr aml_object;
  aml_log : list aml_call;
  wl_sources : gmap ptr wl_event_source;
  wl_script : list bool;
  wl_log : list wl_call
}.

Definition set_wl_loop (v : option ptr) (w : world) : world :=
  {| wl_loop := v; states := states w; entries := entries w;
     calloc_script := calloc_script w; amls := amls w; aml_objs := aml_objs w;
     aml_log := aml_log w; wl_sources := wl_sources w; wl_script := wl_script w;
     wl_log := wl_log w |}.

Definition set_states (v : gmap ptr wl_backend_state) (w : world) : world :=
  {| wl_loop := wl_loop w; states := v; entries := entries w;
     calloc_script := calloc_script w; amls := amls w; aml_objs := aml_objs w;
     aml_log := aml_log w; wl_sources := wl_sources w; wl_script := wl_script w;
     wl_log := wl_log w |}.

Definition set_entries (v : gmap ptr event_source_data) (w : world) : world :=
  {| wl_loop := wl_loop w; states := states w; entries := v;
     calloc_script := calloc_script w; amls := amls w; aml_objs := aml_objs w;
     aml_log := aml_log w; wl_sources := wl_sources w; wl_script := wl_script w;
     wl_log := wl_log w |}.

Definition set_calloc_script (v : list bool) (w : world) : world :=
  {| wl_loop := wl_loop w; states := states w; entries := entries w;
     calloc_script := v; amls := amls w; aml_objs := aml_objs w;
     aml_log := aml_log w; wl_sources := wl_sources w; wl_script := wl_script w;
     wl_log := wl_log w |}.

Definition set_amls (v : gmap ptr ptr) (w : world) : world :=
  {| wl_loop := wl_loop w; states := states w; entries := entries w;
     calloc_script := calloc_script w; amls := v; aml_objs := aml_objs w;
     aml_log := aml_log w; wl_sources := wl_sources w; wl_script := wl_script w;
     wl_log := wl_log w |}.

Definition set_aml_objs (v : gmap ptr aml_object) (w : world) : world :=
  {| wl_loop := wl_loop w; states := states w; entries := entries w;
     calloc_script := calloc_script w; amls := amls w; aml_objs := v;
     aml_log := aml_log w; wl_sources := wl_sources w; wl_script := wl_script w;
     wl_log := wl_log w |}.

Definition set_aml_log (v : list aml_call) (w : world) : world :=
  {| wl_loop := wl_loop w; states := states w; entries := entries w;
     calloc_script := calloc_script w; amls := amls w; aml_objs := aml_objs w;
     aml_log := v; wl_sources := wl_sources w; wl_script := wl_script w;
     wl_log := wl_log w |}.

Definition set_wl_sources (v : gmap ptr wl_event_source) (w : world) : world :=
  {| wl_loop := wl_loop w; states := states w; entries := entries w;
     calloc_script := calloc_script w; amls := amls w; aml_objs := aml_objs w;
     aml_log := aml_log w; wl_sources := v; wl_script := wl_script w;
     wl_log := wl_log w |}.

Definition set_wl_script (v : list bool) (w : world) : world :=
  {| wl_loop := wl_loop w; states := states w; entries := entries w;
     calloc_script := calloc_script w; amls := amls w; aml_objs := aml_objs w;
     aml_log := aml_log w; wl_sources := wl_sources w; wl_script := v;
     wl_log := wl_log w |}.

Definition set_wl_log (v : list wl_call) (w : world) : world :=
  {| wl_loop := wl_loop w; states := states w; entries := entries w;
     calloc_script := calloc_script w; amls := amls w; aml_objs := aml_objs w;
     aml_log := aml_log w; wl_sources := wl_sources w; wl_script := wl_script w;
     wl_log := v |}.

(** ** The monad of C statements

    A statement maps the world to a result and a new world, or to [None] when
    its behaviour is undefined (a null or dangling pointer is dereferenced, or
    a block is freed twice). *)
Definition M (A : Type) : Type := world -> option (A * world).

#[global] Instance M_ret : MRet M := fun A (a : A) (w : world) => Some (a, w).

#[global] Instance M_bind : MBind M :=
  fun A B (f : A -> M B) (m : M A) (w : world) =>
    match m w with
    | Some (a, w') => f a w'
    | None => None
    end.

Definition fault {A : Type} : M A := fun _ => None.
Definition gets {A : Type} (f : world -> A) : M A := fun w => Some (f w, w).
Definition modify (f : world -> world) : M unit := fun w => Some (tt, f w).

(** Dereferencing: the pointer must be non-null and the block live. *)
Definition deref {A : Type} (heap : world -> gmap ptr A) (p : option ptr)
  : M (ptr * A) :=
  fun w => match p with
           | Some a => match heap w !! a with
                       | Some v => Some ((a, v), w)
                       | None => None
                       end
           | None => None
           end.

(** The outcome the script fixes for the coming call, and the rest of it. *)
Definition next_ok (script : list bool) : bool :=
  match script with
  | b :: _ => b
  | [] => true
  end.

Definition pop_calloc_script : M bool :=
  fun w => Some (next_ok (calloc_script w),
                 set_calloc_script (tail (calloc_script w)) w).

Definition pop_wl_script : M bool :=
  fun w => Some (next_ok (wl_script w), set_wl_script (tail (wl_script w)) w).

Definition log_aml (c : aml_call) : M unit :=
  modify (fun w => set_aml_log (aml_log w ++ [c]) w).

Definition log_wl (c : wl_call) : M unit :=
  modify (fun w => set_wl_log (wl_log w ++ [c]) w).

(** ** The C library: [calloc] and [free] of the two structures *)

(** What [calloc] returns: all fields are null. *)
Definition zero_wl_backend_state : wl_backend_state :=
  {| st_aml := None; st_loop := None |}.

Definition zero_event_source_data : event_source_data :=
  {| esd_aml_obj := None; esd_state := None; esd_src := None |}.

Definition calloc_wl_backend_state : M (option ptr) :=
  ok ← pop_calloc_script;
  if ok : bool then
    p ← gets (fun w => fresh (dom (states w)));
    modify (fun w =>
      set_states (<[p := zero_wl_backend_state]> (states w)) w);;
    mret (Some p)
  else mret None.

Definition calloc_event_source_data : M (option ptr) :=
  ok ← pop_calloc_script;
  if ok : bool then
    p ← gets (fun w => fresh (dom (entries w)));
    modify (fun w =>
      set_entries (<[p := zero_event_source_data]> (entries w)) w);;
    mret (Some p)
  else mret None.

(** [free(NULL)] does nothing, freeing a block that is not live is undefined. *)
Definition free_wl_backend_state (p : option ptr) : M unit :=
  match p with
  | None => mret tt
  | Some _ =>
    '(a, _) ← deref states p;
    modify (fun w => set_states (delete a (states w)) w)
  end.

Definition free_event_source_data (p : option ptr) : M unit :=
  match p with
  | None => mret tt
  | Some _ =>
    '(a, _) ← deref entries p;
    modify (fun w => set_entries (delete a (entries w)) w)
  end.

(** [p->field = v] for the two structures. *)
Definition assign_state (p : option ptr)
    (f : wl_backend_state -> wl_backend_state) : M unit :=
  '(a, v) ← deref states p;
  modify (fun w => set_states (<[a := f v]> (states w)) w).

Definition assign_data (p : option ptr)
    (f : event_source_data -> event_source_data) : M unit :=
  '(a, v) ← deref entries p;
  modify (fun w => set_entries (<[a := f v]> (entries w)) w).

Definition set_st_aml (v : option ptr) (s : wl_backend_state) : wl_backend_state :=
  {| st_aml := v; st_loop := st_loop s |}.
Definition set_st_loop (v : option ptr) (s : wl_backend_state) : wl_backend_state :=
  {| st_aml := st_aml s; st_loop := v |}.

Definition set_esd_aml_obj (v : option ptr) (d : event_source_data) : event_source_data :=
  {| esd_aml_obj := v; esd_state := esd_state d; esd_src := esd_src d |}.
Definition set_esd_state (v : option ptr) (d : event_source_data) : event_source_data :=
  {| esd_aml_obj := esd_aml_obj d; esd_state := v; esd_src := esd_src d |}.
Definition set_esd_src (v : option ptr) (d : event_source_data) : event_source_data :=
  {| esd_aml_obj := esd_aml_obj d; esd_state := esd_state d; esd_src := v |}.

(** ** The inner loop's primitives

    Modelled from the spec: get-fd, get-interest-mask, get-signal-number,
    get/set-backend-private, emit and dispatch of libaml. [aml_emit] and
    [aml_dispatch] are recorded as calls: what the inner loop then runs is its
    own business. *)

Definition aml_get_fd (handler : option ptr) : M Z :=
  '(_, o) ← deref aml_objs handler;
  match obj_kind o with
  | aml_handler fd _ => mret fd
  | aml_signal _ => fault
  end.

Definition aml_get_event_mask (handler : option ptr) : M Z :=
  '(_, o) ← deref aml_objs handler;
  match obj_kind o with
  | aml_handler _ event_mask => mret event_mask
  | aml_signal _ => fault
  end.

Definition aml_get_signo (sig : option ptr) : M Z :=
  '(_, o) ← deref aml_objs sig;
  match obj_kind o with
  | aml_signal signo => mret signo
  | aml_handler _ _ => fault
  end.

Definition aml_get_backend_data (obj : option ptr) : M (option ptr) :=
  '(_, o) ← deref aml_objs obj;
  mret (backend_data o).

Definition aml_set_backend_data (obj : option ptr) (data : option ptr) : M unit :=
  '(a, o) ← deref aml_objs obj;
  modify (fun w =>
    set_aml_objs (<[a := {| obj_kind := obj_kind o; backend_data := data |}]>
                    (aml_objs w)) w).

(** The inner loop changing the interest mask of one of its handlers. *)
Definition aml_set_event_mask (handler : option ptr) (mask : Z) : M unit :=
  '(a, o) ← deref aml_objs handler;
  match obj_kind o with
  | aml_handler fd _ =>
    modify (fun w =>
      set_aml_objs (<[a := {| obj_kind := aml_handler fd mask;
                              backend_data := backend_data o |}]>
                      (aml_objs w)) w)
  | aml_signal _ => fault
  end.

Definition aml_emit (self obj : option ptr) (revents : Z) : M unit :=
  '(a, _) ← deref amls self;
  '(o, _) ← deref aml_objs obj;
  log_aml (call_aml_emit a o revents).

Definition aml_dispatch (self : option ptr) : M unit :=
  '(a, _) ← deref amls self;
  log_aml (call_aml_dispatch a).

(** ** The host loop's primitives

    Modelled from the spec: register-fd, update-fd-mask, unregister and
    register-signal of libwayland-server. Registering and updating can be
    rejected, unregistering always removes the registration and returns 0. *)

Definition fd_registration (l : ptr) (fd mask : Z) (func : wl_callback)
    (data : option ptr) : wl_event_source :=
  {| source_loop := l; source_kind := wl_fd_source fd mask;
     source_func := func; source_data := data |}.

Definition signal_registration (l : ptr) (signo : Z) (func : wl_callback)
    (data : option ptr) : wl_event_source :=
  {| source_loop := l; source_kind := wl_signal_source signo;
     source_func := func; source_data := data |}.

Definition wl_event_loop_add_fd (loop : option ptr) (fd mask : Z)
    (func : wl_callback) (data : option ptr) : M (option ptr) :=
  match loop with
  | None => fault
  | Some l =>
    ok ← pop_wl_script;
    if ok : bool then
      source ← gets (fun w => fresh (dom (wl_sources w)));
      modify (fun w =>
        set_wl_sources (<[source := fd_registration l fd mask func data]>
                          (wl_sources w)) w);;
      log_wl (call_wl_event_loop_add_fd l fd mask func data (Some source));;
      mret (Some source)
    else
      log_wl (call_wl_event_loop_add_fd l fd mask func data None);;
      mret None
  end.

Definition wl_event_loop_add_signal (loop : option ptr) (signo : Z)
    (func : wl_callback) (data : option ptr) : M (option ptr) :=
  match loop with
  | None => fault
  | Some l =>
    ok ← pop_wl_script;
    if ok : bool then
      source ← gets (fun w => fresh (dom (wl_sources w)));
      modify (fun w =>
        set_wl_sources (<[source := signal_registration l signo func data]>
                          (wl_sources w)) w);;
      log_wl (call_wl_event_loop_add_signal l signo func data (Some source));;
      mret (Some source)
    else
      log_wl (call_wl_event_loop_add_signal l signo func data None);;
      mret None
  end.

Definition wl_event_source_fd_update (source : option ptr) (mask : Z) : M Z :=
  '(s, reg) ← deref wl_sources source;
  match source_kind reg with
  | wl_fd_source fd _ =>
    ok ← pop_wl_script;
    if ok : bool then
      modify (fun w =>
        set_wl_sources (<[s := fd_registration (source_loop reg) fd mask
                                  (source_func reg) (source_data reg)]>
                          (wl_sources w)) w);;
      log_wl (call_wl_event_source_fd_update s mask 0);;
      mret 0
    else
      log_wl (call_wl_event_source_fd_update s mask (-1));;
      mret (-1)
  | wl_signal_source _ => fault
  end.

Definition wl_event_source_remove (source : option ptr) : M Z :=
  '(s, _) ← deref wl_sources source;
  modify (fun w => set_wl_sources (delete s (wl_sources w)) w);;
  log_wl (call_wl_event_source_remove s);;
  mret 0.

(** ** The bridge (aml-wl-backend.c) *)

Section Bridge.
Context `{EventBits}.

(** aml-wl-backend.c:53. The host loop is not an argument: it is read from
    the static variable [wl_loop]. *)
Definition wl_backend_new_state (aml : option ptr) : M (option ptr) :=
  state ← calloc_wl_backend_state;
  match state with
  | None => mret None
  | Some _ =>
    assign_state state (set_st_aml aml);;
    loop ← gets wl_loop;
    assign_state state (set_st_loop loop);;
    mret state
  end.

(** aml-wl-backend.c:65 *)
Definition wl_backend_del_state (state : option ptr) : M unit :=
  free_wl_backend_state state.

(** aml-wl-backend.c:70 *)
Definition wl_backend_exit : M unit := mret tt.

(** aml-wl-backend.c:94, the fd relay. *)
Definition wl_backend_on_fd_event (fd : Z) (mask : Z) (userdata : option ptr)
  : M Z :=
  let data := userdata in
  let revents := wl_backend_events_to_poll_events mask in
  '(_, d) ← deref entries data;
  '(_, st) ← deref states (esd_state d);
  aml_emit (st_aml st) (esd_aml_obj d) revents;;
  '(_, d) ← deref entries data;
  '(_, st) ← deref states (esd_state d);
  aml_dispatch (st_aml st);;
  mret 0.

(** aml-wl-backend.c:105 *)
Definition event_source_data_new (obj : option ptr) (state : option ptr)
  : M (option ptr) :=
  data ← calloc_event_source_data;
  match data with
  | None => mret None
  | Some _ =>
    assign_data data (set_esd_aml_obj obj);;
    assign_data data (set_esd_state state);;
    mret data
  end.

(** aml-wl-backend.c:118 *)
Definition wl_backend_add_fd (state : option ptr) (handler : option ptr)
  : M Z :=
  let self := state in
  fd ← aml_get_fd handler;
  aml_event_mask ← aml_get_event_mask handler;
  let events := wl_backend_events_from_poll_events aml_event_mask in
  data ← event_source_data_new handler state;
  match data with
  | None => mret (-1)
  | Some _ =>
    '(_, st) ← deref states self;
    src ← wl_event_loop_add_fd (st_loop st) fd events
             fn_wl_backend_on_fd_event data;
    match src with
    | None =>
      free_event_source_data data;;
      mret (-1)
    | Some _ =>
      assign_data data (set_esd_src src);;
      aml_set_backend_data handler data;;
      mret 0
    end
  end.

(** aml-wl-backend.c:145 *)
Definition wl_backend_mod_fd (state : option ptr) (handler : option ptr)
  : M Z :=
  data ← aml_get_backend_data handler;
  aml_event_mask ← aml_get_event_mask handler;
  let wl_mask := wl_backend_events_from_poll_events aml_event_mask in
  '(_, d) ← deref entries data;
  wl_event_source_fd_update (esd_src d) wl_mask;;
  mret 0.

(** aml-wl-backend.c:154 *)
Definition wl_backend_del_fd (state : option ptr) (handler : option ptr)
  : M Z :=
  data ← aml_get_backend_data handler;
  '(_, d) ← deref entries data;
  wl_event_source_remove (esd_src d);;
  free_event_source_data data;;
  mret 0.

(** aml-wl-backend.c:162, the signal relay. *)
Definition wl_backend_on_signal (signo : Z) (userdata : option ptr) : M Z :=
  let data := userdata in
  '(_, d) ← deref entries data;
  '(_, st) ← deref states (esd_state d);
  aml_emit (st_aml st) (esd_aml_obj d) 0;;
  '(_, d) ← deref entries data;
  '(_, st) ← deref states (esd_state d);
  aml_dispatch (st_aml st);;
  mret 0.

(** aml-wl-backend.c:172 *)
Definition wl_backend_add_signal (state : option ptr) (sig : option ptr)
  : M Z :=
  let self := state in
  signo ← aml_get_signo sig;
  data ← event_source_data_new sig state;
  match data with
  | None => mret (-1)
  | Some _ =>
    '(_, st) ← deref states self;
    src ← wl_event_loop_add_signal (st_loop st) signo
             fn_wl_backend_on_signal data;
    match src with
    | None =>
      free_event_source_data data;;
      mret (-1)
    | Some _ =>
      assign_data data (set_esd_src src);;
      aml_set_backend_data sig data;;
      mret 0
    end
  end.

(** aml-wl-backend.c:197 *)
Definition wl_backend_del_signal (state : option ptr) (sig : option ptr)
  : M Z :=
  data ← aml_get_backend_data sig;
  '(_, d) ← deref entries data;
  wl_event_source_remove (esd_src d);;
  free_event_source_data data;;
  mret 0.

(** Modelled from the spec: [aml_new] of libaml for the backend
    [aml_wl_backend] (aml-wl-backend.c:205): a new inner loop asks its
    backend for a state, and fails when it gets none. *)
Definition aml_new : M (option ptr) :=
  self ← gets (fun w => fresh (dom (amls w)));
  state ← wl_backend_new_state (Some self);
  match state with
  | None => mret None
  | Some s =>
    modify (fun w => set_amls (<[self := s]> (amls w)) w);;
    mret (Some self)
  end.

(** aml-wl-backend.c:217 *)
Definition aml_wl_loop_init (loop : option ptr) : M (option ptr) :=
  modify (set_wl_loop loop);;
  aml_new.

(** ** The host loop running a callback

    Modelled from the spec: on readiness of a registration the host loop
    calls the function registered with it, on the registered context. *)
Definition wl_event_source_fd_dispatch (source : option ptr) (mask : Z)
  : M Z :=
  '(_, reg) ← deref wl_sources source;
  match source_kind reg, source_func reg with
  | wl_fd_source fd _, fn_wl_backend_on_fd_event =>
    wl_backend_on_fd_event fd mask (source_data reg)
  | _, _ => fault
  end.

Definition wl_event_source_signal_dispatch (source : option ptr) : M Z :=
  '(_, reg) ← deref wl_sources source;
  match source_kind reg, source_func reg with
  | wl_signal_source signo, fn_wl_backend_on_signal =>
    wl_backend_on_signal signo (source_data reg)
  | _, _ => fault
  end.

(** ** Sequences of calls that are not [aml_wl_loop_init] *)
Inductive bridge_op : Type :=
  | op_new_state (aml : option ptr)
  | op_del_state (state : option ptr)
  | op_exit
  | op_add_fd (state handler : option ptr)
  | op_mod_fd (state handler : option ptr)
  | op_del_fd (state handler : option ptr)
  | op_add_signal (state sig : option ptr)
  | op_del_signal (state sig : option ptr)
  | op_set_event_mask (handler : option ptr) (mask : Z)
  | op_fd_ready (source : option ptr) (mask : Z)
  | op_signal_delivered (source : option ptr).

Definition run_op (o : bridge_op) : M unit :=
  match o with
  | op_new_state aml => wl_backend_new_state aml;; mret tt
  | op_del_state state => wl_backend_del_state state
  | op_exit => wl_backend_exit
  | op_add_fd state handler => wl_backend_add_fd state handler;; mret tt
  | op_mod_fd state handler => wl_backend_mod_fd state handler;; mret tt
  | op_del_fd state handler => wl_backend_del_fd state handler;; mret tt
  | op_add_signal state sig => wl_backend_add_signal state sig;; mret tt
  | op_del_signal state sig => wl_backend_del_signal state sig;; mret tt
  | op_set_event_mask handler mask => aml_set_event_mask handler mask
  | op_fd_ready source mask => wl_event_source_fd_dispatch source mask;; mret tt
  | op_signal_delivered source => wl_event_source_signal_dispatch source;; mret tt
  end.

Fixpoint run_ops (os : list bridge_op) : M unit :=
  match os with
  | [] => mret tt
  | o :: os' => run_op o;; run_ops os'
  end.
End Bridge.

(** A statement that does not write the static variable [wl_loop]. *)
Definition keeps_wl_loop {A : Type} (m : M A) : Prop :=
  forall w a w', m w = Some (a, w') -> wl_loop w' = wl_loop w.

(** A world in which nothing has been created yet. *)
Definition empty_world : world :=
  {| wl_loop := None; states := ∅; entries := ∅; calloc_script := [];
     amls := ∅; aml_objs := ∅; aml_log := []; wl_sources := ∅;
     wl_script := []; wl_log := [] |}.

(** ** Example worlds

    One backend state for the inner loop [1] on the host loop [5], a handler
    [7] for descriptor 7 with interest [POLLIN], and a watcher [8] for
    signal 15; the constants have their Linux values. *)
Definition example_state : wl_backend_state :=
  {| st_aml := Some 1%positive; st_loop := Some 5%positive |}.

Definition example_handler : aml_object :=
  {| obj_kind := aml_handler 7 1; backend_data := None |}.

Definition example_signal : aml_object :=
  {| obj_kind := aml_signal 15; backend_data := None |}.

Definition example_world : world :=
  {| wl_loop := Some 5%positive;
     states := {[ 1%positive := example_state ]};
     entries := ∅;
     calloc_script := [];
     amls := {[ 1%positive := 1%positive ]};
     aml_objs := {[ 7%positive := example_handler; 8%positive := example_signal ]};
     aml_log := [];
     wl_sources := ∅;
     wl_script := [];
     wl_log := [] |}.

(** The entry and the registration of handler [7] once it is added. *)
Definition example_entry : event_source_data :=
  {| esd_aml_obj := Some 7%positive; esd_state := Some 1%positive;
     esd_src := Some 1%positive |}.

Definition example_registration : wl_event_source :=
  fd_registration 5 7 1 fn_wl_backend_on_fd_event (Some 1%positive).

Definition example_registered : world :=
  set_aml_objs (<[7%positive := {| obj_kind := aml_handler 7 1;
                                   backend_data := Some 1%positive |}]>
                  (aml_objs example_world))
    (set_entries {[ 1%positive := example_entry ]}
       (set_wl_sources {[ 1%positive := example_registration ]} example_world)).

(** The same for the signal watcher [8]. *)
Definition example_signal_entry : event_source_data :=
  {| esd_aml_obj := Some 8%positive; esd_state := Some 1%positive;
     esd_src := Some 1%positive |}.

Definition example_signal_registration : wl_event_source :=
  signal_registration 5 15 fn_wl_backend_on_signal (Some 1%positive).

Definition example_signal_registered : world :=
  set_aml_objs (<[8%positive := {| obj_kind := aml_signal 15;
                                   backend_data := Some 1%positive |}]>
                  (aml_objs example_world))
    (set_entries {[ 1%positive := example_signal_entry ]}
       (set_wl_sources {[ 1%positive := example_signal_registration ]}
          example_world)).

(** The worlds after [aml_wl_loop_init] on the host loop [5], after a second
    [aml_wl_loop_init] on the host loop [6], and after one more state is
    created for the first inner loop. *)
Definition example_init_first : world :=
  set_amls {[ 1%positive := 1%positive ]}
    (set_states {[ 1%positive := {| st_aml := Some 1%positive;
                                    st_loop := Some 5%positive |} ]}
       (set_wl_loop (Some 5%positive) empty_world)).

Definition example_init_second : world :=
  set_amls (<[2%positive := 2%positive]> (amls example_init_first))
    (set_states (<[2%positive := {| st_aml := Some 2%positive;
                                    st_loop := Some 6%positive |}]>
                   (states example_init_first))
       (set_wl_loop (Some 6%positive) example_init_first)).

Definition example_init_third : world :=
  set_states (<[3%positive := {| st_aml := Some 1%positive;
                                 st_loop := Some 6%positive |}]>
                (states example_init_second)) example_init_second.

(** ** The pairing of entries and host registrations *)

(** A statement that leaves the part [view] of the world as it is. *)
Definition keeps_view {A B : Type} (view : world -> B) (m : M A) : Prop :=
  forall w a w', m w = Some (a, w') -> view w' = view w.

(** The live entries together with the host's registrations. *)
Definition registry (w : world)
  : gmap ptr event_source_data * gmap ptr wl_event_source :=
  (entries w, wl_sources w).

(** Every registration has a live entry as its context, every live entry
    holds the handle of a registration, and the two refer to each other. *)
Definition entries_match_sources (w : world) : Prop :=
  (forall s reg, wl_sources w !! s = Some reg ->
     exists d e, source_data reg = Some d /\ entries w !! d = Some e
                 /\ esd_src e = Some s)
  /\ (forall d e, entries w !! d = Some e ->
        exists s reg, esd_src e = Some s /\ wl_sources w !! s = Some reg
                      /\ source_data reg = Some d).

(** What one operation of the bridge can do to the entries and the
    registrations: nothing, add a pair, remove a pair, or rewrite a
    registration in place. *)
Inductive registry_step (w w' : world) : Prop :=
  | step_none :
      entries w' = entries w -> wl_sources w' = wl_sources w ->
      registry_step w w'
  | step_add (d s : ptr) (e : event_source_data) (reg : wl_event_source) :
      entries w !! d = None -> wl_sources w !! s = None ->
      esd_src e = Some s -> source_data reg = Some d ->
      entries w' = <[d := e]> (entries w) ->
      wl_sources w' = <[s := reg]> (wl_sources w) ->
      registry_step w w'
  | step_remove (d s : ptr) (e : event_source_data) (reg : wl_event_source) :
      entries w !! d = Some e -> esd_src e = Some s ->
      wl_sources w !! s = Some reg ->
      entries w' = delete d (entries w) ->
      wl_sources w' = delete s (wl_sources w) ->
      registry_step w w'
  | step_update (s : ptr) (reg reg' : wl_event_source) :
      wl_sources w !! s = Some reg -> source_data reg' = source_data reg ->
      entries w' = entries w ->
      wl_sources w' = <[s := reg']> (wl_sources w) ->
      registry_step w w'.

(** * The demo client (clients/fullscreen-image.c)

    The parts of the client that do not go through cairo or the window
    toolkit: the list of outputs and the command line. *)

(** [struct fs_output] (fullscreen-image.c:44): a node of the output list.
    The [link] field is the position of the node in [fs_output_list]. *)
Record fs_output : Type := {
  fs_output_output : ptr
}.

(** The fields of [struct fullscreen] (fullscreen-image.c:49) that the
    command line and the output handler use, behind the prefix [fs_].
    [fs_output_list] is the [wl_list], first node first. *)
Record fullscreen : Type := {
  fs_filename : string;
  fs_width : Z;
  fs_height : Z;
  fs_output_list : list fs_output;
  fs_current_output : option ptr
}.

Definition newline : string := String (Ascii.ascii_of_nat 10) EmptyString.
Definition tab : string := String (Ascii.ascii_of_nat 9) EmptyString.

(** The loop of [output_handler] over the list (fullscreen-image.c:231):
    whether a node for [output] is there. *)
Fixpoint output_seen (l : list fs_output) (output : ptr) : bool :=
  match l with
  | [] => false
  | fsout :: rest =>
    if Pos.eqb (fs_output_output fsout) output then true
    else output_seen rest output
  end.

(** fullscreen-image.c:224. [zalloc_ok] is the outcome of [zalloc]; the
    result is the structure afterwards and what was written to stderr. *)
Definition output_handler (zalloc_ok : bool) (output : ptr) (data : fullscreen)
  : fullscreen * string :=
  if output_seen (fs_output_list data) output then (data, "")
  else if zalloc_ok then
    let fsout := {| fs_output_output := output |} in
    ({| fs_filename := fs_filename data; fs_width := fs_width data;
        fs_height := fs_height data;
        fs_output_list := fsout :: fs_output_list data;
        fs_current_output := fs_current_output data |}, "")
  else (data, "out of memory in output_handler" +:+ newline).

(** A sequence of calls of the handler, each with its allocation outcome. *)
Fixpoint output_handler_calls (calls : list (bool * ptr)) (data : fullscreen)
  : fullscreen :=
  match calls with
  | [] => data
  | (zalloc_ok, output) :: rest =>
    output_handler_calls rest (output_handler zalloc_ok output data).1
  end.

(** The two arguments of [usage] (fullscreen-image.c:213). *)
Inductive exit_status : Type := EXIT_SUCCESS | EXIT_FAILURE.

(** What [usage] writes to stderr before it calls [exit]. *)
Definition usage_text : string :=
  "Usage: fullscreen [OPTIONS]" +:+ newline +:+ newline
  +:+ "   -w <width>" +:+ tab +:+ "Set window width to <width>" +:+ newline
  +:+ "   -h <height>" +:+ tab +:+ "Set window height to <height>" +:+ newline
  +:+ "   --help" +:+ tab +:+ "Show this help text" +:+ newline +:+ newline.

(** [int32_t]: the value a [long] has after it is stored in an [int32_t]. *)
Definition int32 (z : Z) : Z := (z + 2 ^ 31) mod 2 ^ 32 - 2 ^ 31.

(** How the option loop of [main] ends: in [usage], or past its end. *)
Inductive options_result : Type :=
  | options_usage (error_code : exit_status)
  | options_done (width height : Z).

(** How [main] gets to line 296: it returns, it leaves through [usage], or
    it goes on to [display_create] with the structure filled so far. In each
    case [stdout] is what it has printed. *)
Inductive main_result : Type :=
  | main_return (status : Z) (stdout : string)
  | main_usage (error_code : exit_status) (stdout stderr : string)
  | main_display_create (data : fullscreen) (stdout : string).

Section CommandLine.
Variable atol : string -> Z.

(** The loop of [main] (fullscreen-image.c:279), [args] being [argv] from
    index [i] on. [atol] is the function of the C library. *)
Fixpoint main_options (args : list string) (width height : Z)
  : options_result :=
  match args with
  | [] => options_done width height
  | a :: rest =>
    if String.eqb a "-w" then
      match rest with
      | [] => options_usage EXIT_FAILURE
      | v :: rest' => main_options rest' (int32 (atol v)) height
      end
    else if String.eqb a "-h" then
      match rest with
      | [] => options_usage EXIT_FAILURE
      | v :: rest' => main_options rest' width (int32 (atol v))
      end
    else if String.eqb a "--help" then options_usage EXIT_SUCCESS
    else options_usage EXIT_FAILURE
  end.

(** [argv[1][0] == '-'], the character 45. *)
Definition starts_with_dash (s : string) : bool :=
  match s with
  | String c _ => Ascii.eqb c (Ascii.ascii_of_nat 45)
  | EmptyString => false
  end.

(** [main] (fullscreen-image.c:260) up to the call of [display_create], on
    [argv] = [argv0 :: args]. [strdup] is taken to return a copy of its
    argument. *)
Definition main (argv0 : string) (args : list string) : main_result :=
  let usage_image := "Usage: " +:+ argv0 +:+ " image..." +:+ newline in
  match args with
  | [] => main_return 1 usage_image
  | argv1 :: options =>
    if starts_with_dash argv1 then main_return 1 usage_image
    else
      let stdout := "fullscreen.filename: " +:+ argv1 in
      match main_options options 200 100 with
      | options_usage error_code => main_usage error_code stdout usage_text
      | options_done width height =>
        main_display_create
          {| fs_filename := argv1; fs_width := width; fs_height := height;
             fs_output_list := []; fs_current_output := None |} stdout
      end
  end.

(** A well-formed option: [-w] (for [true]) or [-h] with its value. *)
Definition option_flag (is_width : bool) : string :=
  if is_width then "-w" else "-h".

Definition option_words (pairs : list (bool * string)) : list string :=
  flat_map (fun p => [option_flag p.1; p.2]) pairs.

(** The sizes after a sequence of well-formed options, read left to right. *)
Definition option_sizes (pairs : list (bool * string)) (sizes : Z * Z) : Z * Z :=
  fold_left (fun s p => if p.1 : bool then (int32 (atol p.2), s.2)
                        else (s.1, int32 (atol p.2)))
            pairs sizes.
End CommandLine.

(** * Properties *)

(** ** Bitwise facts used by the mask translator *)

Lemma uint32_land (z : Z) : uint32 z = Z.land z (Z.ones 32).
Proof. unfold uint32. symmetry. apply Z.land_ones. lia. Qed.

Lemma uint32_small (z : Z) : 0 <= z < 2 ^ 32 -> uint32 z = z.
Proof. intros Hz. unfold uint32. apply Z.mod_small. exact Hz. Qed.

Lemma single_bit_uint32 (c : Z) : single_bit c -> uint32 c = c.
Proof. intros [Hc _]. apply uint32_small. lia. Qed.

Lemma single_bit_land (c x : Z) :
  single_bit c -> Z.land x c <> 0 -> Z.land x c = c.
Proof.
  intros [Hc Hpow] Hnz. rewrite Hpow in *.
  set (i := Z.log2 c) in *.
  assert (Hi : 0 <= i) by apply Z.log2_nonneg.
  apply Z.bits_inj'. intros n Hn.
  rewrite Z.land_spec, Z.pow2_bits_eqb by lia.
  destruct (Z.eqb_spec i n) as [->|Hne]; [|apply andb_false_r].
  rewrite andb_true_r.
  destruct (Z.testbit x n) eqn:Hx; [reflexivity|].
  exfalso. apply Hnz. apply Z.bits_inj'. intros m Hm.
  rewrite Z.land_spec, Z.pow2_bits_eqb, Z.bits_0 by lia.
  destruct (Z.eqb_spec n m) as [->|_]; [|apply andb_false_r].
  rewrite Hx. reflexivity.
Qed.

Lemma single_bit_disjoint (a b : Z) :
  single_bit a -> single_bit b -> a <> b -> Z.land a b = 0.
Proof.
  intros Ha Hb Hne.
  destruct (Z.eq_dec (Z.land a b) 0) as [E|E]; [exact E|].
  exfalso. apply Hne.
  rewrite <- (single_bit_land b a Hb E).
  rewrite Z.land_comm in E. rewrite (Z.land_comm a b).
  symmetry. apply (single_bit_land a b Ha E).
Qed.

Lemma land_restrict_l (x a b : Z) :
  Z.land (Z.land x (Z.lor a b)) (uint32 a) = Z.land x (uint32 a).
Proof.
  rewrite uint32_land. apply Z.bits_inj'. intros n _.
  rewrite !Z.land_spec, Z.lor_spec.
  destruct (Z.testbit x n), (Z.testbit a n), (Z.testbit b n); reflexivity.
Qed.

Lemma land_restrict_r (x a b : Z) :
  Z.land (Z.land x (Z.lor a b)) (uint32 b) = Z.land x (uint32 b).
Proof.
  rewrite uint32_land. apply Z.bits_inj'. intros n _.
  rewrite !Z.land_spec, Z.lor_spec.
  destruct (Z.testbit x n), (Z.testbit a n), (Z.testbit b n); reflexivity.
Qed.

Lemma or_if_set_only_bits (in_ b out c a1 a2 : Z) :
  only_bits a1 a2 out -> Z.land c (Z.lor a1 a2) = c ->
  only_bits a1 a2 (or_if_set in_ b out c).
Proof.
  unfold only_bits, or_if_set. intros Hout Hc.
  destruct (Z.land in_ (uint32 b) =? 0); [exact Hout|].
  rewrite uint32_land. apply Z.bits_inj'. intros n _.
  apply (f_equal (fun z => Z.testbit z n)) in Hout, Hc.
  rewrite !Z.land_spec, !Z.lor_spec in *.
  destruct (Z.testbit out n), (Z.testbit c n), (Z.testbit a1 n),
    (Z.testbit a2 n), (Z.testbit (Z.ones 32) n); simpl in *; congruence.
Qed.

Lemma lor_absorb_l (a b : Z) : Z.land a (Z.lor a b) = a.
Proof.
  apply Z.bits_inj'. intros n _. rewrite Z.land_spec, Z.lor_spec.
  destruct (Z.testbit a n), (Z.testbit b n); reflexivity.
Qed.

Lemma lor_absorb_r (a b : Z) : Z.land b (Z.lor a b) = b.
Proof. rewrite Z.lor_comm. apply lor_absorb_l. Qed.

Lemma uint32_lor (a b : Z) : uint32 (Z.lor a b) = Z.lor (uint32 a) (uint32 b).
Proof. rewrite !uint32_land. apply Z.land_lor_distr_l. Qed.

Lemma only_bits_split (a b x : Z) :
  only_bits a b x -> x = Z.lor (Z.land x a) (Z.land x b).
Proof. unfold only_bits. intros Hx. rewrite <- Z.land_lor_distr_r. auto. Qed.

Lemma uint32_idem (z : Z) : uint32 (uint32 z) = uint32 z.
Proof. unfold uint32. apply Z.mod_mod. lia. Qed.

Lemma or_if_set_uint32 (in_ b out c : Z) :
  uint32 out = out -> uint32 (or_if_set in_ b out c) = or_if_set in_ b out c.
Proof.
  intros Hout. unfold or_if_set.
  destruct (Z.land in_ (uint32 b) =? 0); [exact Hout | apply uint32_idem].
Qed.

(** With one-bit constants and an accumulator in range no conversion wraps. *)
Lemma or_if_set_bits (in_ b out c : Z) :
  single_bit b -> single_bit c -> uint32 out = out ->
  or_if_set in_ b out c = if Z.land in_ b =? 0 then out else Z.lor out c.
Proof.
  intros Hb Hc Hout. unfold or_if_set.
  rewrite uint32_lor, Hout, (single_bit_uint32 b Hb), (single_bit_uint32 c Hc).
  reflexivity.
Qed.

(** Translating the pair of bits [a], [b] to the pair [c], [d] and then back
    is the identity on the masks made of [a] and [b]. *)
Lemma or_if_set_roundtrip (a b c d x : Z) :
  single_bit a -> single_bit b -> single_bit c -> single_bit d -> c <> d ->
  only_bits a b x ->
  let y := or_if_set x b (or_if_set x a 0 c) d in
  or_if_set y d (or_if_set y c 0 a) b = x.
Proof.
  intros Ha Hb Hc Hd Hcd Hx. cbv zeta.
  pose proof (single_bit_disjoint c d Hc Hd Hcd) as Hdis.
  assert (Hdis' : Z.land d c = 0) by (rewrite Z.land_comm; exact Hdis).
  assert (Hc0 : (c =? 0) = false) by (destruct Hc; lia).
  assert (Hd0 : (d =? 0) = false) by (destruct Hd; lia).
  rewrite (only_bits_split a b x Hx) at 5.
  rewrite !or_if_set_bits
    by (try assumption; try reflexivity; apply or_if_set_uint32; reflexivity).
  destruct (Z.eqb_spec (Z.land x a) 0) as [Ea|Ea];
    destruct (Z.eqb_spec (Z.land x b) 0) as [Eb|Eb];
    rewrite ?Ea, ?Eb, ?(single_bit_land a x Ha Ea), ?(single_bit_land b x Hb Eb),
      ?Z.lor_0_l, ?Z.land_lor_distr_l, ?Z.land_diag, ?Hdis, ?Hdis', ?Z.land_0_l,
      ?Z.lor_0_l, ?Z.lor_0_r, ?Hc0, ?Hd0;
    reflexivity.
Qed.

Section MaskTranslatorFacts.
Context `{EventBits}.

(** C8 (confirmed): in both directions the bits outside the two defined
    pairs are ignored. Translating a mask gives what translating its
    restriction to the two defined input bits gives, the result has no bit
    outside the two defined output bits, and the functions are total on
    every input (they return a mask, never an error). *)
Theorem undefined_bits_ignored (x : Z) :
  to_abstract x
    = to_abstract (Z.land x (Z.lor WL_EVENT_READABLE WL_EVENT_WRITABLE))
  /\ to_host x = to_host (Z.land x (Z.lor POLLIN POLLOUT))
  /\ only_bits POLLIN POLLOUT (to_abstract x)
  /\ only_bits WL_EVENT_READABLE WL_EVENT_WRITABLE (to_host x).
Proof.
  unfold to_abstract, to_host, wl_backend_events_to_poll_events,
    wl_backend_events_from_poll_events.
  repeat split.
  - unfold or_if_set. rewrite land_restrict_l, land_restrict_r. reflexivity.
  - unfold or_if_set. rewrite land_restrict_l, land_restrict_r. reflexivity.
  - apply or_if_set_only_bits; [apply or_if_set_only_bits|].
    + reflexivity.
    + apply lor_absorb_l.
    + apply lor_absorb_r.
  - apply or_if_set_only_bits; [apply or_if_set_only_bits|].
    + reflexivity.
    + apply lor_absorb_l.
    + apply lor_absorb_r.
Qed.

(** C1 (confirmed): on the masks made of the two defined bits the two
    translations are inverse to each other, in both orders. [to_abstract]
    reads [WL_EVENT_READABLE] and [WL_EVENT_WRITABLE], so [x] is a mask of
    these two bits; [to_host] reads [POLLIN] and [POLLOUT], so [y] is a mask
    of those two. *)
Theorem mask_translation_inverse (Hok : EventBitsOk) :
  (forall x, only_bits WL_EVENT_READABLE WL_EVENT_WRITABLE x ->
             to_host (to_abstract x) = x)
  /\ (forall y, only_bits POLLIN POLLOUT y -> to_abstract (to_host y) = y).
Proof.
  destruct Hok. split; intros m Hm.
  - apply (or_if_set_roundtrip WL_EVENT_READABLE WL_EVENT_WRITABLE
             POLLIN POLLOUT m); assumption.
  - apply (or_if_set_roundtrip POLLIN POLLOUT
             WL_EVENT_READABLE WL_EVENT_WRITABLE m); assumption.
Qed.
End MaskTranslatorFacts.

Lemma linux_bits_ok : @EventBitsOk linux_bits.
Proof.
  split; try (split; [simpl; lia | reflexivity]); simpl; discriminate.
Defined.

Lemma mask_translation_inverse_witness :
  @to_host linux_bits (@to_abstract linux_bits 3) = 3
  /\ @to_abstract linux_bits (@to_host linux_bits 5) = 5.
Proof.
  destruct (@mask_translation_inverse linux_bits linux_bits_ok) as [Hx Hy].
  split; [apply Hx | apply Hy]; reflexivity.
Defined.

(** ** Running statements *)

Lemma bind_run {A B : Type} (m : M A) (f : A -> M B) (w w' : world) (a : A) :
  m w = Some (a, w') -> (m ≫= f) w = f a w'.
Proof. intros Hm. unfold mbind, M_bind. rewrite Hm. reflexivity. Qed.

Lemma bind_fault {A B : Type} (m : M A) (f : A -> M B) (w : world) :
  m w = None -> (m ≫= f) w = None.
Proof. intros Hm. unfold mbind, M_bind. rewrite Hm. reflexivity. Qed.

Lemma run_deref {A : Type} (heap : world -> gmap ptr A) (a : ptr) (v : A)
    (w : world) :
  heap w !! a = Some v -> deref heap (Some a) w = Some ((a, v), w).
Proof. intros Hv. unfold deref. rewrite Hv. reflexivity. Qed.

Lemma fresh_lookup_None {A : Type} (m : gmap ptr A) : m !! fresh (dom m) = None.
Proof. apply not_elem_of_dom. apply is_fresh. Qed.

(** One statement of a sequence, run by the equation [tac] proves for it. *)
Ltac mstep tac := erewrite bind_run by (tac; cbn; eauto); cbn beta iota.

(** *** Allocation *)

Lemma run_calloc_event_source_data_ok (w : world) :
  next_ok (calloc_script w) = true ->
  calloc_event_source_data w
  = Some (Some (fresh (dom (entries w))),
          set_entries (<[fresh (dom (entries w)) := zero_event_source_data]>
                         (entries w))
            (set_calloc_script (tail (calloc_script w)) w)).
Proof.
  intros Hok. unfold calloc_event_source_data, mbind, M_bind, pop_calloc_script.
  rewrite Hok. reflexivity.
Qed.

Lemma run_calloc_event_source_data_fail (w : world) :
  next_ok (calloc_script w) = false ->
  calloc_event_source_data w
  = Some (None, set_calloc_script (tail (calloc_script w)) w).
Proof.
  intros Hok. unfold calloc_event_source_data, mbind, M_bind, pop_calloc_script.
  rewrite Hok. reflexivity.
Qed.

Lemma run_event_source_data_new_ok (obj state : option ptr) (w : world) :
  next_ok (calloc_script w) = true ->
  event_source_data_new obj state w
  = Some (Some (fresh (dom (entries w))),
          set_entries (<[fresh (dom (entries w)) :=
                           {| esd_aml_obj := obj; esd_state := state;
                              esd_src := None |}]> (entries w))
            (set_calloc_script (tail (calloc_script w)) w)).
Proof.
  intros Hok. unfold event_source_data_new.
  mstep ltac:(apply run_calloc_event_source_data_ok).
  unfold assign_data.
  mstep ltac:(erewrite bind_run by (apply run_deref; cbn; apply lookup_insert_eq)).
  mstep ltac:(erewrite bind_run by (apply run_deref; cbn; apply lookup_insert_eq)).
  unfold mret, M_ret. cbn. rewrite !insert_insert_eq. reflexivity.
Qed.

Lemma run_event_source_data_new_fail (obj state : option ptr) (w : world) :
  next_ok (calloc_script w) = false ->
  event_source_data_new obj state w
  = Some (None, set_calloc_script (tail (calloc_script w)) w).
Proof.
  intros Hok. unfold event_source_data_new.
  mstep ltac:(apply run_calloc_event_source_data_fail). reflexivity.
Qed.

(** *** The inner loop *)

Lemma run_aml_get_fd (w : world) (handler : ptr) (o : aml_object) (fd mask : Z) :
  aml_objs w !! handler = Some o -> obj_kind o = aml_handler fd mask ->
  aml_get_fd (Some handler) w = Some (fd, w).
Proof.
  intros Ho Hk. unfold aml_get_fd. mstep ltac:(apply run_deref).
  rewrite Hk. reflexivity.
Qed.

Lemma run_aml_get_event_mask (w : world) (handler : ptr) (o : aml_object)
    (fd mask : Z) :
  aml_objs w !! handler = Some o -> obj_kind o = aml_handler fd mask ->
  aml_get_event_mask (Some handler) w = Some (mask, w).
Proof.
  intros Ho Hk. unfold aml_get_event_mask. mstep ltac:(apply run_deref).
  rewrite Hk. reflexivity.
Qed.

Lemma run_aml_get_signo (w : world) (sig : ptr) (o : aml_object) (signo : Z) :
  aml_objs w !! sig = Some o -> obj_kind o = aml_signal signo ->
  aml_get_signo (Some sig) w = Some (signo, w).
Proof.
  intros Ho Hk. unfold aml_get_signo. mstep ltac:(apply run_deref).
  rewrite Hk. reflexivity.
Qed.

Lemma run_aml_get_backend_data (w : world) (obj : ptr) (o : aml_object) :
  aml_objs w !! obj = Some o ->
  aml_get_backend_data (Some obj) w = Some (backend_data o, w).
Proof.
  intros Ho. unfold aml_get_backend_data. mstep ltac:(apply run_deref).
  reflexivity.
Qed.

Lemma run_aml_set_backend_data (w : world) (obj : ptr) (o : aml_object)
    (data : option ptr) :
  aml_objs w !! obj = Some o ->
  aml_set_backend_data (Some obj) data w
  = Some (tt, set_aml_objs (<[obj := {| obj_kind := obj_kind o;
                                        backend_data := data |}]> (aml_objs w)) w).
Proof.
  intros Ho. unfold aml_set_backend_data. mstep ltac:(apply run_deref).
  reflexivity.
Qed.

Lemma run_aml_set_event_mask (w : world) (handler : ptr) (o : aml_object)
    (fd old mask : Z) :
  aml_objs w !! handler = Some o -> obj_kind o = aml_handler fd old ->
  aml_set_event_mask (Some handler) mask w
  = Some (tt, set_aml_objs (<[handler := {| obj_kind := aml_handler fd mask;
                                            backend_data := backend_data o |}]>
                              (aml_objs w)) w).
Proof.
  intros Ho Hk. unfold aml_set_event_mask. mstep ltac:(apply run_deref).
  rewrite Hk. reflexivity.
Qed.

Lemma run_aml_emit (w : world) (self obj : ptr) (s : ptr) (o : aml_object)
    (revents : Z) :
  amls w !! self = Some s -> aml_objs w !! obj = Some o ->
  aml_emit (Some self) (Some obj) revents w
  = Some (tt, set_aml_log (aml_log w ++ [call_aml_emit self obj revents]) w).
Proof.
  intros Hs Ho. unfold aml_emit.
  mstep ltac:(apply run_deref). mstep ltac:(apply run_deref). reflexivity.
Qed.

Lemma run_aml_dispatch (w : world) (self : ptr) (s : ptr) :
  amls w !! self = Some s ->
  aml_dispatch (Some self) w
  = Some (tt, set_aml_log (aml_log w ++ [call_aml_dispatch self]) w).
Proof.
  intros Hs. unfold aml_dispatch. mstep ltac:(apply run_deref). reflexivity.
Qed.

(** *** The host loop *)

Lemma run_wl_event_loop_add_fd_ok (w : world) (l : ptr) (fd mask : Z)
    (func : wl_callback) (data : option ptr) :
  next_ok (wl_script w) = true ->
  let source := fresh (dom (wl_sources w)) in
  wl_event_loop_add_fd (Some l) fd mask func data w
  = Some (Some source,
          set_wl_log (wl_log w ++ [call_wl_event_loop_add_fd l fd mask func data
                                     (Some source)])
            (set_wl_sources (<[source := fd_registration l fd mask func data]>
                               (wl_sources w))
               (set_wl_script (tail (wl_script w)) w))).
Proof.
  intros Hok source. unfold wl_event_loop_add_fd, mbind, M_bind, pop_wl_script.
  rewrite Hok. reflexivity.
Qed.

Lemma run_wl_event_loop_add_fd_fail (w : world) (l : ptr) (fd mask : Z)
    (func : wl_callback) (data : option ptr) :
  next_ok (wl_script w) = false ->
  wl_event_loop_add_fd (Some l) fd mask func data w
  = Some (None,
          set_wl_log (wl_log w ++ [call_wl_event_loop_add_fd l fd mask func data
                                     None])
            (set_wl_script (tail (wl_script w)) w)).
Proof.
  intros Hok. unfold wl_event_loop_add_fd, mbind, M_bind, pop_wl_script.
  rewrite Hok. reflexivity.
Qed.

Lemma run_wl_event_loop_add_signal_ok (w : world) (l : ptr) (signo : Z)
    (func : wl_callback) (data : option ptr) :
  next_ok (wl_script w) = true ->
  let source := fresh (dom (wl_sources w)) in
  wl_event_loop_add_signal (Some l) signo func data w
  = Some (Some source,
          set_wl_log (wl_log w ++ [call_wl_event_loop_add_signal l signo func
                                     data (Some source)])
            (set_wl_sources (<[source := signal_registration l signo func data]>
                               (wl_sources w))
               (set_wl_script (tail (wl_script w)) w))).
Proof.
  intros Hok source. unfold wl_event_loop_add_signal, mbind, M_bind, pop_wl_script.
  rewrite Hok. reflexivity.
Qed.

Lemma run_wl_event_loop_add_signal_fail (w : world) (l : ptr) (signo : Z)
    (func : wl_callback) (data : option ptr) :
  next_ok (wl_script w) = false ->
  wl_event_loop_add_signal (Some l) signo func data w
  = Some (None,
          set_wl_log (wl_log w ++ [call_wl_event_loop_add_signal l signo func
                                     data None])
            (set_wl_script (tail (wl_script w)) w)).
Proof.
  intros Hok. unfold wl_event_loop_add_signal, mbind, M_bind, pop_wl_script.
  rewrite Hok. reflexivity.
Qed.

Lemma run_wl_event_source_fd_update (w : world) (s : ptr)
    (reg : wl_event_source) (fd old mask : Z) :
  wl_sources w !! s = Some reg -> source_kind reg = wl_fd_source fd old ->
  wl_event_source_fd_update (Some s) mask w
  = if next_ok (wl_script w)
    then Some (0,
               set_wl_log (wl_log w ++ [call_wl_event_source_fd_update s mask 0])
                 (set_wl_sources
                    (<[s := fd_registration (source_loop reg) fd mask
                              (source_func reg) (source_data reg)]>
                       (wl_sources w))
                    (set_wl_script (tail (wl_script w)) w)))
    else Some (-1,
               set_wl_log (wl_log w
                             ++ [call_wl_event_source_fd_update s mask (-1)])
                 (set_wl_script (tail (wl_script w)) w)).
Proof.
  intros Hs Hk. unfold wl_event_source_fd_update.
  mstep ltac:(apply run_deref). rewrite Hk.
  unfold mbind, M_bind, pop_wl_script.
  destruct (next_ok (wl_script w)); reflexivity.
Qed.

Lemma run_wl_event_source_remove (w : world) (s : ptr) (reg : wl_event_source) :
  wl_sources w !! s = Some reg ->
  wl_event_source_remove (Some s) w
  = Some (0, set_wl_log (wl_log w ++ [call_wl_event_source_remove s])
               (set_wl_sources (delete s (wl_sources w)) w)).
Proof.
  intros Hs. unfold wl_event_source_remove.
  mstep ltac:(apply run_deref). reflexivity.
Qed.

(** *** Entries *)

Lemma run_assign_data (w : world) (p : ptr) (v : event_source_data)
    (f : event_source_data -> event_source_data) :
  entries w !! p = Some v ->
  assign_data (Some p) f w
  = Some (tt, set_entries (<[p := f v]> (entries w)) w).
Proof.
  intros Hp. unfold assign_data. mstep ltac:(apply run_deref). reflexivity.
Qed.

Lemma run_free_event_source_data (w : world) (p : ptr) (v : event_source_data) :
  entries w !! p = Some v ->
  free_event_source_data (Some p) w
  = Some (tt, set_entries (delete p (entries w)) w).
Proof.
  intros Hp. unfold free_event_source_data.
  mstep ltac:(apply run_deref). reflexivity.
Qed.

Section LifecycleFacts.
Context `{EventBits}.

(** *** What the lifecycle operations compute *)

Lemma run_add_fd_ok (w : world) (state handler l : ptr)
    (st : wl_backend_state) (o : aml_object) (fd mask : Z) :
  states w !! state = Some st -> st_loop st = Some l ->
  aml_objs w !! handler = Some o -> obj_kind o = aml_handler fd mask ->
  next_ok (calloc_script w) = true -> next_ok (wl_script w) = true ->
  let data := fresh (dom (entries w)) in
  let source := fresh (dom (wl_sources w)) in
  wl_backend_add_fd (Some state) (Some handler) w
  = Some (0,
      set_aml_objs (<[handler := {| obj_kind := obj_kind o;
                                    backend_data := Some data |}]> (aml_objs w))
        (set_entries (<[data := {| esd_aml_obj := Some handler;
                                   esd_state := Some state;
                                   esd_src := Some source |}]> (entries w))
           (set_wl_log (wl_log w ++ [call_wl_event_loop_add_fd l fd
                                       (to_host mask) fn_wl_backend_on_fd_event
                                       (Some data) (Some source)])
              (set_wl_sources (<[source := fd_registration l fd (to_host mask)
                                             fn_wl_backend_on_fd_event
                                             (Some data)]> (wl_sources w))
                 (set_wl_script (tail (wl_script w))
                    (set_calloc_script (tail (calloc_script w)) w)))))).
Proof.
  intros Hst Hl Ho Hk Hc Hh data source. unfold wl_backend_add_fd.
  mstep ltac:(eapply run_aml_get_fd).
  mstep ltac:(eapply run_aml_get_event_mask).
  mstep ltac:(apply run_event_source_data_new_ok).
  mstep ltac:(apply run_deref). rewrite Hl.
  mstep ltac:(apply run_wl_event_loop_add_fd_ok).
  mstep ltac:(eapply run_assign_data; cbn; apply lookup_insert_eq).
  mstep ltac:(eapply run_aml_set_backend_data).
  unfold mret, M_ret. cbn. rewrite insert_insert_eq. reflexivity.
Qed.

(** A call of [wl_backend_add_fd] that returns 0 had live arguments, and
    both its allocation and its host registration succeeded. *)
Lemma add_fd_returns_0 (w w' : world) (state handler : option ptr) :
  wl_backend_add_fd state handler w = Some (0, w') ->
  exists (s h l : ptr) (st : wl_backend_state) (o : aml_object) (fd mask : Z),
    state = Some s /\ handler = Some h
    /\ states w !! s = Some st /\ st_loop st = Some l
    /\ aml_objs w !! h = Some o /\ obj_kind o = aml_handler fd mask
    /\ next_ok (calloc_script w) = true /\ next_ok (wl_script w) = true.
Proof.
  unfold wl_backend_add_fd. intros Hrun.
  destruct handler as [h|]; [|discriminate].
  destruct (aml_objs w !! h) as [o|] eqn:Ho;
    [|rewrite bind_fault in Hrun; [discriminate|];
      unfold aml_get_fd; apply bind_fault; unfold deref; rewrite Ho;
      reflexivity].
  destruct (obj_kind o) as [fd mask|signo] eqn:Hk;
    [|rewrite bind_fault in Hrun; [discriminate|];
      unfold aml_get_fd; erewrite bind_run by (apply run_deref; exact Ho);
      cbn beta iota; rewrite Hk; reflexivity].
  revert Hrun.
  mstep ltac:(eapply run_aml_get_fd).
  mstep ltac:(eapply run_aml_get_event_mask).
  destruct (next_ok (calloc_script w)) eqn:Hc;
    [|mstep ltac:(apply run_event_source_data_new_fail); discriminate].
  mstep ltac:(apply run_event_source_data_new_ok).
  destruct state as [s|]; [|discriminate].
  destruct (states w !! s) as [st|] eqn:Hst;
    [|rewrite bind_fault; [discriminate|];
      unfold deref; cbn; rewrite Hst; reflexivity].
  mstep ltac:(apply run_deref).
  destruct (st_loop st) as [l|] eqn:Hl; [|discriminate].
  destruct (next_ok (wl_script w)) eqn:Hh.
  - intros _. exists s, h, l, st, o, fd, mask. repeat apply conj; auto.
  - mstep ltac:(apply run_wl_event_loop_add_fd_fail).
    mstep ltac:(eapply run_free_event_source_data; cbn;
                apply lookup_insert_eq).
    discriminate.
Qed.

Lemma run_add_fd_fail (w : world) (state handler l : ptr)
    (st : wl_backend_state) (o : aml_object) (fd mask : Z) :
  states w !! state = Some st -> st_loop st = Some l ->
  aml_objs w !! handler = Some o -> obj_kind o = aml_handler fd mask ->
  next_ok (calloc_script w) = false \/ next_ok (wl_script w) = false ->
  exists w',
    wl_backend_add_fd (Some state) (Some handler) w = Some (-1, w')
    /\ entries w' = entries w /\ aml_objs w' = aml_objs w
    /\ wl_sources w' = wl_sources w /\ states w' = states w.
Proof.
  intros Hst Hl Ho Hk Hfail. unfold wl_backend_add_fd.
  mstep ltac:(eapply run_aml_get_fd).
  mstep ltac:(eapply run_aml_get_event_mask).
  destruct (next_ok (calloc_script w)) eqn:Hc.
  - destruct Hfail as [Hfail|Hh]; [discriminate|].
    mstep ltac:(apply run_event_source_data_new_ok).
    mstep ltac:(apply run_deref). rewrite Hl.
    mstep ltac:(apply run_wl_event_loop_add_fd_fail).
    mstep ltac:(eapply run_free_event_source_data; cbn;
                apply lookup_insert_eq).
    eexists. split; [reflexivity|]. cbn.
    rewrite delete_insert_id by apply fresh_lookup_None.
    repeat apply conj; reflexivity.
  - mstep ltac:(apply run_event_source_data_new_fail).
    eexists. split; [reflexivity|]. cbn. repeat apply conj; reflexivity.
Qed.

Lemma run_add_signal_ok (w : world) (state sig l : ptr)
    (st : wl_backend_state) (o : aml_object) (signo : Z) :
  states w !! state = Some st -> st_loop st = Some l ->
  aml_objs w !! sig = Some o -> obj_kind o = aml_signal signo ->
  next_ok (calloc_script w) = true -> next_ok (wl_script w) = true ->
  let data := fresh (dom (entries w)) in
  let source := fresh (dom (wl_sources w)) in
  wl_backend_add_signal (Some state) (Some sig) w
  = Some (0,
      set_aml_objs (<[sig := {| obj_kind := obj_kind o;
                                backend_data := Some data |}]> (aml_objs w))
        (set_entries (<[data := {| esd_aml_obj := Some sig;
                                   esd_state := Some state;
                                   esd_src := Some source |}]> (entries w))
           (set_wl_log (wl_log w ++ [call_wl_event_loop_add_signal l signo
                                       fn_wl_backend_on_signal
                                       (Some data) (Some source)])
              (set_wl_sources (<[source := signal_registration l signo
                                             fn_wl_backend_on_signal
                                             (Some data)]> (wl_sources w))
                 (set_wl_script (tail (wl_script w))
                    (set_calloc_script (tail (calloc_script w)) w)))))).
Proof.
  intros Hst Hl Ho Hk Hc Hh data source. unfold wl_backend_add_signal.
  mstep ltac:(eapply run_aml_get_signo).
  mstep ltac:(apply run_event_source_data_new_ok).
  mstep ltac:(apply run_deref). rewrite Hl.
  mstep ltac:(apply run_wl_event_loop_add_signal_ok).
  mstep ltac:(eapply run_assign_data; cbn; apply lookup_insert_eq).
  mstep ltac:(eapply run_aml_set_backend_data).
  unfold mret, M_ret. cbn. rewrite insert_insert_eq. reflexivity.
Qed.

Lemma run_add_signal_fail (w : world) (state sig l : ptr)
    (st : wl_backend_state) (o : aml_object) (signo : Z) :
  states w !! state = Some st -> st_loop st = Some l ->
  aml_objs w !! sig = Some o -> obj_kind o = aml_signal signo ->
  next_ok (calloc_script w) = false \/ next_ok (wl_script w) = false ->
  exists w',
    wl_backend_add_signal (Some state) (Some sig) w = Some (-1, w')
    /\ entries w' = entries w /\ aml_objs w' = aml_objs w
    /\ wl_sources w' = wl_sources w /\ states w' = states w.
Proof.
  intros Hst Hl Ho Hk Hfail. unfold wl_backend_add_signal.
  mstep ltac:(eapply run_aml_get_signo).
  destruct (next_ok (calloc_script w)) eqn:Hc.
  - destruct Hfail as [Hfail|Hh]; [discriminate|].
    mstep ltac:(apply run_event_source_data_new_ok).
    mstep ltac:(apply run_deref). rewrite Hl.
    mstep ltac:(apply run_wl_event_loop_add_signal_fail).
    mstep ltac:(eapply run_free_event_source_data; cbn;
                apply lookup_insert_eq).
    eexists. split; [reflexivity|]. cbn.
    rewrite delete_insert_id by apply fresh_lookup_None.
    repeat apply conj; reflexivity.
  - mstep ltac:(apply run_event_source_data_new_fail).
    eexists. split; [reflexivity|]. cbn. repeat apply conj; reflexivity.
Qed.

Lemma run_mod_fd (w : world) (state : option ptr) (handler data source : ptr)
    (o : aml_object) (d : event_source_data) (reg : wl_event_source)
    (fd mask rfd old : Z) :
  aml_objs w !! handler = Some o -> obj_kind o = aml_handler fd mask ->
  backend_data o = Some data ->
  entries w !! data = Some d -> esd_src d = Some source ->
  wl_sources w !! source = Some reg -> source_kind reg = wl_fd_source rfd old ->
  wl_backend_mod_fd state (Some handler) w
  = if next_ok (wl_script w)
    then Some (0,
           set_wl_log (wl_log w ++ [call_wl_event_source_fd_update source
                                      (to_host mask) 0])
             (set_wl_sources
                (<[source := fd_registration (source_loop reg) rfd
                               (to_host mask) (source_func reg)
                               (source_data reg)]> (wl_sources w))
                (set_wl_script (tail (wl_script w)) w)))
    else Some (0,
           set_wl_log (wl_log w ++ [call_wl_event_source_fd_update source
                                      (to_host mask) (-1)])
             (set_wl_script (tail (wl_script w)) w)).
Proof.
  intros Ho Hk Hb Hd Hs Hreg Hrk. unfold wl_backend_mod_fd.
  mstep ltac:(eapply run_aml_get_backend_data). rewrite Hb.
  mstep ltac:(eapply run_aml_get_event_mask).
  mstep ltac:(apply run_deref). rewrite Hs.
  unfold mbind at 1, M_bind at 1.
  erewrite run_wl_event_source_fd_update by eauto.
  destruct (next_ok (wl_script w)); reflexivity.
Qed.

Lemma run_del_fd (w : world) (state : option ptr) (handler data source : ptr)
    (o : aml_object) (d : event_source_data) (reg : wl_event_source) :
  aml_objs w !! handler = Some o -> backend_data o = Some data ->
  entries w !! data = Some d -> esd_src d = Some source ->
  wl_sources w !! source = Some reg ->
  wl_backend_del_fd state (Some handler) w
  = Some (0,
      set_entries (delete data (entries w))
        (set_wl_log (wl_log w ++ [call_wl_event_source_remove source])
           (set_wl_sources (delete source (wl_sources w)) w))).
Proof.
  intros Ho Hb Hd Hs Hreg. unfold wl_backend_del_fd.
  mstep ltac:(eapply run_aml_get_backend_data). rewrite Hb.
  mstep ltac:(apply run_deref). rewrite Hs.
  mstep ltac:(eapply run_wl_event_source_remove).
  mstep ltac:(eapply run_free_event_source_data).
  reflexivity.
Qed.
End LifecycleFacts.

(** ** C9, C3, C4: registering a file descriptor *)

Section AddFacts.
Context `{EventBits}.

(** C9 (confirmed): every call of [wl_backend_add_fd] that returns 0 has
    allocated a new entry that refers to the watcher and to the backend
    state and holds the handle which the host's register-fd call returned;
    the watcher's backend-private slot holds that entry afterwards; and the
    host recorded the registration for the watcher's descriptor with the
    translated mask, the fd relay as callback and the entry as context. The
    watcher and the backend state are only referred to: the state is
    unchanged, the watcher only has its slot set. The call does return 0
    whenever its arguments are live and the allocation and the host's
    register-fd call succeed. *)
Theorem add_fd_success :
  (forall (w w' : world) (state handler : option ptr),
      wl_backend_add_fd state handler w = Some (0, w') ->
      exists (s h l : ptr) (st : wl_backend_state) (o : aml_object)
             (fd mask : Z),
        state = Some s /\ handler = Some h
        /\ states w !! s = Some st /\ st_loop st = Some l
        /\ aml_objs w !! h = Some o /\ obj_kind o = aml_handler fd mask
        /\ let data := fresh (dom (entries w)) in
           let source := fresh (dom (wl_sources w)) in
           entries w !! data = None
           /\ wl_sources w !! source = None
           /\ wl_log w' = wl_log w ++ [call_wl_event_loop_add_fd l fd
                                         (to_host mask)
                                         fn_wl_backend_on_fd_event
                                         (Some data) (Some source)]
           /\ wl_sources w' = <[source := fd_registration l fd (to_host mask)
                                            fn_wl_backend_on_fd_event
                                            (Some data)]> (wl_sources w)
           /\ entries w' = <[data := {| esd_aml_obj := Some h;
                                        esd_state := Some s;
                                        esd_src := Some source |}]> (entries w)
           /\ aml_objs w' = <[h := {| obj_kind := obj_kind o;
                                      backend_data := Some data |}]>
                              (aml_objs w)
           /\ states w' = states w)
  /\ (forall (w : world) (state handler l : ptr) (st : wl_backend_state)
             (o : aml_object) (fd mask : Z),
        states w !! state = Some st -> st_loop st = Some l ->
        aml_objs w !! handler = Some o -> obj_kind o = aml_handler fd mask ->
        next_ok (calloc_script w) = true -> next_ok (wl_script w) = true ->
        exists w', wl_backend_add_fd (Some state) (Some handler) w
                   = Some (0, w')).
Proof.
  split.
  - intros w w' state handler Hrun.
    destruct (add_fd_returns_0 w w' state handler Hrun)
      as (s & h & l & st & o & fd & mask
          & -> & -> & Hst & Hl & Ho & Hk & Hc & Hh).
    exists s, h, l, st, o, fd, mask.
    rewrite (run_add_fd_ok w s h l st o fd mask Hst Hl Ho Hk Hc Hh) in Hrun.
    inversion Hrun. cbn.
    repeat apply conj; try apply fresh_lookup_None; auto.
  - intros w state handler l st o fd mask Hst Hl Ho Hk Hc Hh.
    eexists. eapply run_add_fd_ok; eauto.
Qed.

(** C3 (confirmed): when the allocation of the entry fails, or the
    allocation succeeds and the host's register-fd call fails,
    [wl_backend_add_fd] returns -1 and rolls back: the live entries are
    those from before the call (the entry allocated for the call has been
    freed), the watcher is as it was, so its backend-private slot is
    untouched, and the host loop has no new registration. *)
Theorem add_fd_failure_rollback (w : world) (state handler l : ptr)
    (st : wl_backend_state) (o : aml_object) (fd mask : Z) :
  states w !! state = Some st -> st_loop st = Some l ->
  aml_objs w !! handler = Some o -> obj_kind o = aml_handler fd mask ->
  next_ok (calloc_script w) = false \/ next_ok (wl_script w) = false ->
  exists w',
    wl_backend_add_fd (Some state) (Some handler) w = Some (-1, w')
    /\ entries w' = entries w
    /\ aml_objs w' !! handler = Some o
    /\ aml_objs w' = aml_objs w
    /\ wl_sources w' = wl_sources w.
Proof.
  intros Hst Hl Ho Hk Hfail.
  destruct (run_add_fd_fail w state handler l st o fd mask)
    as (w' & Hrun & He & Hobjs & Hsrc & _); auto.
  exists w'. rewrite Hobjs. auto.
Qed.

(** C4 (amended): the operations that register with the host loop report
    its refusal. When the host loop rejects the registration,
    [wl_backend_add_fd] and [wl_backend_add_signal] return -1. *)
Theorem host_registration_failure_reported (w : world) (state l : ptr)
    (st : wl_backend_state) :
  states w !! state = Some st -> st_loop st = Some l ->
  next_ok (wl_script w) = false ->
  (forall handler o fd mask,
     aml_objs w !! handler = Some o -> obj_kind o = aml_handler fd mask ->
     exists w', wl_backend_add_fd (Some state) (Some handler) w
                = Some (-1, w'))
  /\ (forall sig o signo,
        aml_objs w !! sig = Some o -> obj_kind o = aml_signal signo ->
        exists w', wl_backend_add_signal (Some state) (Some sig) w
                   = Some (-1, w')).
Proof.
  intros Hst Hl Hh. split.
  - intros handler o fd mask Ho Hk.
    destruct (run_add_fd_fail w state handler l st o fd mask)
      as (w' & Hrun & _); eauto.
  - intros sig o signo Ho Hk.
    destruct (run_add_signal_fail w state sig l st o signo)
      as (w' & Hrun & _); eauto.
Qed.
End AddFacts.

Lemma add_fd_success_witness :
  exists w',
    @wl_backend_add_fd linux_bits (Some 1%positive) (Some 7%positive)
      example_world = Some (0, w')
    /\ aml_objs w' !! 7%positive
       = Some {| obj_kind := aml_handler 7 1; backend_data := Some 1%positive |}
    /\ entries w' !! 1%positive = Some example_entry
    /\ wl_sources w' !! 1%positive = Some example_registration.
Proof.
  destruct (@add_fd_success linux_bits) as [Hall Hrun].
  destruct (Hrun example_world 1%positive 7%positive 5%positive example_state
              example_handler 7 1) as [w' Hw']; try reflexivity.
  exists w'. split; [exact Hw'|].
  destruct (Hall example_world w' (Some 1%positive) (Some 7%positive) Hw')
    as (s & h & l & st & o & fd & mask
        & Es & Eh & Hst & Hl & Ho & Hk & _ & _ & _ & Hsrc & Hent & Hobj & _).
  inversion Es. inversion Eh. subst s h.
  assert (Eo : o = example_handler)
    by (apply (inj Some); rewrite <- Ho; reflexivity).
  assert (Est : st = example_state)
    by (apply (inj Some); rewrite <- Hst; reflexivity).
  subst o st. inversion Hk. inversion Hl. subst fd mask l.
  rewrite Hsrc, Hent, Hobj. repeat apply conj; reflexivity.
Defined.

Lemma add_fd_failure_rollback_witness :
  exists w',
    @wl_backend_add_fd linux_bits (Some 1%positive) (Some 7%positive)
      (set_wl_script [false] example_world) = Some (-1, w')
    /\ entries w' = ∅
    /\ aml_objs w' !! 7%positive = Some example_handler.
Proof.
  destruct (@add_fd_failure_rollback linux_bits
              (set_wl_script [false] example_world) 1 7 5 example_state
              example_handler 7 1)
    as (w' & Hrun & Hent & Hobj & _);
    try reflexivity.
  - right. reflexivity.
  - exists w'. auto.
Defined.

Lemma host_registration_failure_reported_witness :
  (exists w', @wl_backend_add_fd linux_bits (Some 1%positive) (Some 7%positive)
                (set_wl_script [false] example_world) = Some (-1, w'))
  /\ (exists w', wl_backend_add_signal (Some 1%positive) (Some 8%positive)
                   (set_wl_script [false] example_world) = Some (-1, w')).
Proof.
  destruct (@host_registration_failure_reported linux_bits
              (set_wl_script [false] example_world) 1 5 example_state)
    as [Hfd Hsig]; try reflexivity.
  split.
  - apply (Hfd 7%positive example_handler 7 1); reflexivity.
  - apply (Hsig 8%positive example_signal 15); reflexivity.
Defined.

(** C4, counterexample: the host loop rejects the update of the mask of
    handler [7] (its call returns -1), and [wl_backend_mod_fd] returns 0. *)
Lemma mod_fd_host_failure_unreported :
  exists w',
    @wl_backend_mod_fd linux_bits (Some 1%positive) (Some 7%positive)
      (set_wl_script [false] example_registered) = Some (0, w')
    /\ wl_log w' = [call_wl_event_source_fd_update 1 1 (-1)].
Proof. eexists. split; vm_compute; reflexivity. Qed.

(** ** C2, C6: removing and modifying a registration *)

Section DelModFacts.
Context `{EventBits}.

(** C2 (amended): for a watcher with an attached entry, [wl_backend_del_fd]
    returns 0, removes the entry's registration from the host loop (with one
    call of the host's remove) and frees the entry; it does not write the
    watcher, whose backend-private slot keeps the address of the freed
    entry. So after [wl_backend_add_fd] and then [wl_backend_del_fd] on one
    watcher the live entries and the host registrations are those from
    before the two calls, none when there were none, and the slot holds the
    address of an entry that is no longer live. *)
Theorem del_fd_unregisters_and_frees :
  (forall (w : world) (state : option ptr) (handler data source : ptr)
          (o : aml_object) (d : event_source_data) (reg : wl_event_source),
      aml_objs w !! handler = Some o -> backend_data o = Some data ->
      entries w !! data = Some d -> esd_src d = Some source ->
      wl_sources w !! source = Some reg ->
      exists w',
        wl_backend_del_fd state (Some handler) w = Some (0, w')
        /\ wl_sources w' = delete source (wl_sources w)
        /\ wl_log w' = wl_log w ++ [call_wl_event_source_remove source]
        /\ entries w' = delete data (entries w)
        /\ aml_objs w' = aml_objs w)
  /\ (forall (w : world) (state handler l : ptr) (st : wl_backend_state)
             (o : aml_object) (fd mask : Z),
        states w !! state = Some st -> st_loop st = Some l ->
        aml_objs w !! handler = Some o -> obj_kind o = aml_handler fd mask ->
        next_ok (calloc_script w) = true -> next_ok (wl_script w) = true ->
        exists w1 w2 data,
          wl_backend_add_fd (Some state) (Some handler) w = Some (0, w1)
          /\ wl_backend_del_fd (Some state) (Some handler) w1 = Some (0, w2)
          /\ entries w2 = entries w
          /\ wl_sources w2 = wl_sources w
          /\ aml_objs w2 !! handler
             = Some {| obj_kind := obj_kind o; backend_data := Some data |}
          /\ entries w2 !! data = None).
Proof.
  split.
  - intros w state handler data source o d reg Ho Hb Hd Hs Hreg.
    eexists. split; [eapply run_del_fd; eauto|].
    cbn. repeat apply conj; reflexivity.
  - intros w state handler l st o fd mask Hst Hl Ho Hk Hc Hh.
    eexists. eexists. exists (fresh (dom (entries w))).
    split; [eapply run_add_fd_ok; eauto|].
    split.
    + eapply run_del_fd; cbn.
      * apply lookup_insert_eq.
      * reflexivity.
      * apply lookup_insert_eq.
      * reflexivity.
      * apply lookup_insert_eq.
    + cbn. rewrite !delete_insert_id by apply fresh_lookup_None.
      rewrite lookup_insert_eq.
      repeat apply conj; try reflexivity. apply fresh_lookup_None.
Qed.

(** C6 (confirmed): for a watcher with an attached entry,
    [wl_backend_mod_fd] reads the watcher's current interest mask,
    translates it and makes exactly one host call, the update of the
    entry's registration with the translated mask. It allocates nothing and
    touches no entry, the registration keeps its handle, and no registration
    is removed or added; when the host loop accepts the update the mask it
    has recorded for the registration is the translated one. So after
    [wl_backend_add_fd], a change of the interest mask to [new_mask] and
    [wl_backend_mod_fd], the host loop has recorded [to_host new_mask] for the
    registration made by [wl_backend_add_fd]. *)
Theorem mod_fd_updates_in_place :
  (forall (w : world) (state : option ptr) (handler data source : ptr)
          (o : aml_object) (d : event_source_data) (reg : wl_event_source)
          (fd mask rfd old : Z),
      aml_objs w !! handler = Some o -> obj_kind o = aml_handler fd mask ->
      backend_data o = Some data ->
      entries w !! data = Some d -> esd_src d = Some source ->
      wl_sources w !! source = Some reg ->
      source_kind reg = wl_fd_source rfd old ->
      exists w' result,
        wl_backend_mod_fd state (Some handler) w = Some (0, w')
        /\ wl_log w' = wl_log w ++ [call_wl_event_source_fd_update source
                                      (to_host mask) result]
        /\ entries w' = entries w
        /\ calloc_script w' = calloc_script w
        /\ aml_objs w' = aml_objs w
        /\ dom (wl_sources w') = dom (wl_sources w)
        /\ (next_ok (wl_script w) = true ->
            wl_sources w' = <[source := fd_registration (source_loop reg) rfd
                                          (to_host mask) (source_func reg)
                                          (source_data reg)]> (wl_sources w)))
  /\ (forall (w : world) (state handler l : ptr) (st : wl_backend_state)
             (o : aml_object) (fd mask new_mask : Z),
        states w !! state = Some st -> st_loop st = Some l ->
        aml_objs w !! handler = Some o -> obj_kind o = aml_handler fd mask ->
        next_ok (calloc_script w) = true ->
        next_ok (wl_script w) = true ->
        next_ok (tail (wl_script w)) = true ->
        let data := fresh (dom (entries w)) in
        let source := fresh (dom (wl_sources w)) in
        exists w',
          (wl_backend_add_fd (Some state) (Some handler);;
           aml_set_event_mask (Some handler) new_mask;;
           wl_backend_mod_fd (Some state) (Some handler)) w = Some (0, w')
          /\ wl_sources w'
             = <[source := fd_registration l fd (to_host new_mask)
                             fn_wl_backend_on_fd_event (Some data)]>
                 (wl_sources w)
          /\ entries w' = <[data := {| esd_aml_obj := Some handler;
                                       esd_state := Some state;
                                       esd_src := Some source |}]> (entries w)).
Proof.
  split.
  - intros w state handler data source o d reg fd mask rfd old
      Ho Hk Hb Hd Hs Hreg Hrk.
    pose proof (run_mod_fd w state handler data source o d reg fd mask rfd old
                  Ho Hk Hb Hd Hs Hreg Hrk) as Hrun.
    destruct (next_ok (wl_script w)); eexists; eexists;
      (split; [exact Hrun|]); cbn.
    + repeat apply conj; try reflexivity.
      rewrite dom_insert_L. apply elem_of_dom_2 in Hreg.
      apply subseteq_union_1_L, singleton_subseteq_l. exact Hreg.
    + repeat apply conj; try reflexivity. discriminate.
  - intros w state handler l st o fd mask new_mask
      Hst Hl Ho Hk Hc Hh Hh2 data source.
    eexists. split.
    + mstep ltac:(eapply run_add_fd_ok).
      mstep ltac:(eapply run_aml_set_event_mask; cbn;
                  [apply lookup_insert_eq | exact Hk]).
      erewrite run_mod_fd; cbn;
        rewrite ?lookup_insert_eq, ?Hh2; try reflexivity.
    + cbn. rewrite !insert_insert_eq. split; reflexivity.
Qed.
End DelModFacts.

Lemma del_fd_unregisters_and_frees_witness :
  exists w',
    wl_backend_del_fd (Some 1%positive) (Some 7%positive) example_registered
    = Some (0, w')
    /\ wl_sources w' = ∅ /\ entries w' = ∅
    /\ aml_objs w' !! 7%positive
       = Some {| obj_kind := aml_handler 7 1; backend_data := Some 1%positive |}.
Proof.
  destruct (@del_fd_unregisters_and_frees linux_bits) as [Hdel _].
  destruct (Hdel example_registered (Some 1%positive) 7%positive 1%positive
              1%positive
              {| obj_kind := aml_handler 7 1; backend_data := Some 1%positive |}
              example_entry example_registration)
    as (w' & Hrun & Hsrc & _ & Hent & Hobj); try reflexivity.
  exists w'. rewrite Hsrc, Hent, Hobj. repeat apply conj.
  - exact Hrun.
  - vm_compute. reflexivity.
  - vm_compute. reflexivity.
  - reflexivity.
Defined.

(** C2, counterexample: after [wl_backend_add_fd] and [wl_backend_del_fd] on
    handler [7] no entry is live, and the backend-private slot of the handler
    is not cleared: it holds the address 1 of the freed entry. *)
Lemma del_fd_leaves_slot_set :
  exists w1 w2,
    @wl_backend_add_fd linux_bits (Some 1%positive) (Some 7%positive)
      example_world = Some (0, w1)
    /\ wl_backend_del_fd (Some 1%positive) (Some 7%positive) w1 = Some (0, w2)
    /\ entries w2 = ∅
    /\ backend_data <$> aml_objs w2 !! 7%positive = Some (Some 1%positive)
    /\ backend_data <$> aml_objs w2 !! 7%positive <> Some None.
Proof.
  eexists. eexists. split; [vm_compute; reflexivity|].
  split; [vm_compute; reflexivity|].
  split; [vm_compute; reflexivity|].
  split; [vm_compute; reflexivity|].
  vm_compute. discriminate.
Qed.

Lemma mod_fd_updates_in_place_witness :
  exists w',
    (@wl_backend_add_fd linux_bits (Some 1%positive) (Some 7%positive);;
     aml_set_event_mask (Some 7%positive) 5;;
     @wl_backend_mod_fd linux_bits (Some 1%positive) (Some 7%positive))
      example_world = Some (0, w')
    /\ wl_sources w' !! 1%positive
       = Some (fd_registration 5 7 3 fn_wl_backend_on_fd_event (Some 1%positive)).
Proof.
  destruct (@mod_fd_updates_in_place linux_bits) as [_ Hseq].
  destruct (Hseq example_world 1%positive 7%positive 5%positive example_state
              example_handler 7 1 5)
    as (w' & Hrun & Hsrc & _); try reflexivity.
  exists w'. rewrite Hsrc. split; [exact Hrun|reflexivity].
Defined.

(** ** C5, C7: the dispatch relays *)

Section RelayFacts.
Context `{EventBits}.

Lemma to_abstract_readable :
  EventBitsOk -> to_abstract WL_EVENT_READABLE = POLLIN.
Proof.
  intros Hok. destruct Hok.
  unfold to_abstract, wl_backend_events_to_poll_events.
  rewrite !or_if_set_bits
    by (try assumption; try reflexivity; apply or_if_set_uint32; reflexivity).
  rewrite Z.land_diag,
    (single_bit_disjoint _ _ READABLE_bit0 WRITABLE_bit0 WL_distinct0).
  destruct READABLE_bit0 as [Hpos _].
  destruct (Z.eqb_spec WL_EVENT_READABLE 0); [lia|]. reflexivity.
Qed.

(** What the two relays compute on a live entry. *)
Lemma run_relay (w : world) (revents : Z) (data obj s a s' : ptr)
    (d : event_source_data) (st : wl_backend_state) (o : aml_object) :
  entries w !! data = Some d ->
  esd_aml_obj d = Some obj -> esd_state d = Some s ->
  states w !! s = Some st -> st_aml st = Some a ->
  amls w !! a = Some s' -> aml_objs w !! obj = Some o ->
  ('(_, d) ← deref entries (Some data);
   '(_, st) ← deref states (esd_state d);
   aml_emit (st_aml st) (esd_aml_obj d) revents;;
   '(_, d) ← deref entries (Some data);
   '(_, st) ← deref states (esd_state d);
   aml_dispatch (st_aml st);;
   mret 0) w
  = Some (0, set_aml_log (aml_log w ++ [call_aml_emit a obj revents;
                                        call_aml_dispatch a]) w).
Proof.
  intros Hd Hobj Hs Hst Ha Haml Ho.
  mstep ltac:(apply run_deref). rewrite Hs.
  mstep ltac:(apply run_deref). rewrite Ha, Hobj.
  mstep ltac:(eapply run_aml_emit).
  mstep ltac:(apply run_deref). rewrite Hs.
  mstep ltac:(apply run_deref). rewrite Ha.
  mstep ltac:(eapply run_aml_dispatch).
  unfold mret, M_ret. cbn. rewrite <- app_assoc. reflexivity.
Qed.

(** C5 (confirmed): invoked with the host's readiness bits [m] and a live
    entry made for the watcher [obj], the fd relay returns 0 and makes
    exactly two calls into the inner loop: one emission, on [obj], with the
    mask [to_abstract m], and after it one dispatch pass. Nothing else
    changes: no other watcher is written, no entry and no host registration
    is added or removed. The host's readable bit alone is emitted as the
    inner loop's readable bit alone. *)
Theorem fd_relay_emits_once (w : world) (fd m : Z) (data obj s a s' : ptr)
    (d : event_source_data) (st : wl_backend_state) (o : aml_object) :
  entries w !! data = Some d ->
  esd_aml_obj d = Some obj -> esd_state d = Some s ->
  states w !! s = Some st -> st_aml st = Some a ->
  amls w !! a = Some s' -> aml_objs w !! obj = Some o ->
  exists w',
    wl_backend_on_fd_event fd m (Some data) w = Some (0, w')
    /\ aml_log w' = aml_log w ++ [call_aml_emit a obj (to_abstract m);
                                  call_aml_dispatch a]
    /\ aml_objs w' = aml_objs w
    /\ entries w' = entries w
    /\ wl_sources w' = wl_sources w
    /\ wl_log w' = wl_log w
    /\ (EventBitsOk -> m = WL_EVENT_READABLE -> to_abstract m = POLLIN).
Proof.
  intros Hd Hobj Hs Hst Ha Haml Ho. eexists. split.
  - unfold wl_backend_on_fd_event. cbv zeta. eapply run_relay; eauto.
  - cbn. repeat apply conj; try reflexivity.
    intros Hok ->. apply to_abstract_readable. exact Hok.
Qed.

(** C7 (confirmed): when the host loop delivers a signal to a registration
    made for the signal relay, whose context is a live entry for the signal
    watcher [obj], the relay returns 0 and makes exactly two calls into the
    inner loop: one emission, on [obj], with the mask 0, and after it one
    dispatch pass; nothing else changes. The same holds for the relay
    called on the entry directly, for every signal number. *)
Theorem signal_relay_emits_zero (w : world) (data obj s a s' : ptr)
    (d : event_source_data) (st : wl_backend_state) (o : aml_object) :
  entries w !! data = Some d ->
  esd_aml_obj d = Some obj -> esd_state d = Some s ->
  states w !! s = Some st -> st_aml st = Some a ->
  amls w !! a = Some s' -> aml_objs w !! obj = Some o ->
  let w' := set_aml_log (aml_log w ++ [call_aml_emit a obj 0;
                                       call_aml_dispatch a]) w in
  (forall signo, wl_backend_on_signal signo (Some data) w = Some (0, w'))
  /\ (forall source l signo,
        wl_sources w !! source
        = Some (signal_registration l signo fn_wl_backend_on_signal
                  (Some data)) ->
        wl_event_source_signal_dispatch (Some source) w = Some (0, w'))
  /\ aml_log w' = aml_log w ++ [call_aml_emit a obj 0; call_aml_dispatch a]
  /\ aml_objs w' = aml_objs w
  /\ entries w' = entries w
  /\ wl_sources w' = wl_sources w
  /\ wl_log w' = wl_log w.
Proof.
  intros Hd Hobj Hs Hst Ha Haml Ho w'.
  assert (Hrelay : forall signo,
             wl_backend_on_signal signo (Some data) w = Some (0, w')).
  { intros signo. unfold wl_backend_on_signal. cbv zeta.
    eapply run_relay; eauto. }
  split; [exact Hrelay|]. split.
  - intros source l signo Hreg. unfold wl_event_source_signal_dispatch.
    mstep ltac:(apply run_deref). apply Hrelay.
  - cbn. repeat apply conj; reflexivity.
Qed.
End RelayFacts.

Lemma fd_relay_emits_once_witness :
  exists w',
    @wl_backend_on_fd_event linux_bits 7 1 (Some 1%positive) example_registered
    = Some (0, w')
    /\ aml_log w' = [call_aml_emit 1 7 1; call_aml_dispatch 1].
Proof.
  destruct (@fd_relay_emits_once linux_bits example_registered 7 1 1%positive
              7%positive 1%positive 1%positive 1%positive example_entry
              example_state
              {| obj_kind := aml_handler 7 1; backend_data := Some 1%positive |})
    as (w' & Hrun & Hlog & _); try reflexivity.
  exists w'. split; [exact Hrun|]. rewrite Hlog. reflexivity.
Defined.

Lemma signal_relay_emits_zero_witness :
  exists w',
    wl_event_source_signal_dispatch (Some 1%positive) example_signal_registered
    = Some (0, w')
    /\ aml_log w' = [call_aml_emit 1 8 0; call_aml_dispatch 1].
Proof.
  destruct (signal_relay_emits_zero example_signal_registered 1%positive
              8%positive 1%positive 1%positive 1%positive example_signal_entry
              example_state
              {| obj_kind := aml_signal 15; backend_data := Some 1%positive |})
    as (_ & Hdispatch & Hlog & _); try reflexivity.
  eexists. split.
  - apply (Hdispatch 1%positive 5%positive 15). reflexivity.
  - reflexivity.
Defined.

(** ** C10: the host loop reaches the state constructor through [wl_loop] *)

Lemma keeps_ret {A : Type} (a : A) : keeps_wl_loop (mret a : M A).
Proof. intros w a' w' Hrun. inversion Hrun. reflexivity. Qed.

Lemma keeps_bind {A B : Type} (m : M A) (f : A -> M B) :
  keeps_wl_loop m -> (forall a, keeps_wl_loop (f a)) -> keeps_wl_loop (m ≫= f).
Proof.
  intros Hm Hf w b w' Hrun. unfold mbind, M_bind in Hrun.
  destruct (m w) as [[a w1]|] eqn:Em; [|discriminate].
  rewrite (Hf a w1 b w' Hrun). apply (Hm w a w1 Em).
Qed.

Lemma keeps_fault {A : Type} : keeps_wl_loop (fault : M A).
Proof. intros w a w' Hrun. discriminate. Qed.

Lemma keeps_gets {A : Type} (f : world -> A) : keeps_wl_loop (gets f).
Proof. intros w a w' Hrun. inversion Hrun. reflexivity. Qed.

Lemma keeps_modify (f : world -> world) :
  (forall w, wl_loop (f w) = wl_loop w) -> keeps_wl_loop (modify f).
Proof. intros Hf w a w' Hrun. inversion Hrun. apply Hf. Qed.

Lemma keeps_deref {A : Type} (heap : world -> gmap ptr A) (p : option ptr) :
  keeps_wl_loop (deref heap p).
Proof.
  intros w a w' Hrun. unfold deref in Hrun.
  destruct p as [q|]; [|discriminate].
  destruct (heap w !! q); [|discriminate]. inversion Hrun. reflexivity.
Qed.

Lemma keeps_pop_calloc_script : keeps_wl_loop pop_calloc_script.
Proof. intros w a w' Hrun. inversion Hrun. reflexivity. Qed.

Lemma keeps_pop_wl_script : keeps_wl_loop pop_wl_script.
Proof. intros w a w' Hrun. inversion Hrun. reflexivity. Qed.

Create HintDb keeps.

#[local] Hint Resolve keeps_ret keeps_fault keeps_gets keeps_deref
  keeps_pop_calloc_script keeps_pop_wl_script : keeps.

(** Statement by statement: a sequence keeps [wl_loop] when its parts do. *)
Ltac keeps :=
  repeat (intros;
    lazymatch goal with
    | |- keeps_wl_loop (_ ≫= _) => apply keeps_bind
    | |- keeps_wl_loop (modify _) => apply keeps_modify; intros; reflexivity
    | |- keeps_wl_loop (match ?x with _ => _ end) => destruct x
    | |- keeps_wl_loop _ => solve [auto with keeps]
    end).

Lemma keeps_log_aml (c : aml_call) : keeps_wl_loop (log_aml c).
Proof. unfold log_aml. keeps. Qed.

Lemma keeps_log_wl (c : wl_call) : keeps_wl_loop (log_wl c).
Proof. unfold log_wl. keeps. Qed.

#[local] Hint Resolve keeps_log_aml keeps_log_wl : keeps.

Lemma keeps_calloc_wl_backend_state : keeps_wl_loop calloc_wl_backend_state.
Proof. unfold calloc_wl_backend_state. keeps. Qed.

Lemma keeps_calloc_event_source_data : keeps_wl_loop calloc_event_source_data.
Proof. unfold calloc_event_source_data. keeps. Qed.

Lemma keeps_free_wl_backend_state (p : option ptr) :
  keeps_wl_loop (free_wl_backend_state p).
Proof. unfold free_wl_backend_state. keeps. Qed.

Lemma keeps_free_event_source_data (p : option ptr) :
  keeps_wl_loop (free_event_source_data p).
Proof. unfold free_event_source_data. keeps. Qed.

Lemma keeps_assign_state (p : option ptr)
    (f : wl_backend_state -> wl_backend_state) :
  keeps_wl_loop (assign_state p f).
Proof. unfold assign_state. keeps. Qed.

Lemma keeps_assign_data (p : option ptr)
    (f : event_source_data -> event_source_data) :
  keeps_wl_loop (assign_data p f).
Proof. unfold assign_data. keeps. Qed.

#[local] Hint Resolve keeps_calloc_wl_backend_state
  keeps_calloc_event_source_data keeps_free_wl_backend_state
  keeps_free_event_source_data keeps_assign_state keeps_assign_data : keeps.

Lemma keeps_aml_get_fd (h : option ptr) : keeps_wl_loop (aml_get_fd h).
Proof. unfold aml_get_fd. keeps. Qed.

Lemma keeps_aml_get_event_mask (h : option ptr) :
  keeps_wl_loop (aml_get_event_mask h).
Proof. unfold aml_get_event_mask. keeps. Qed.

Lemma keeps_aml_get_signo (s : option ptr) : keeps_wl_loop (aml_get_signo s).
Proof. unfold aml_get_signo. keeps. Qed.

Lemma keeps_aml_get_backend_data (obj : option ptr) :
  keeps_wl_loop (aml_get_backend_data obj).
Proof. unfold aml_get_backend_data. keeps. Qed.

Lemma keeps_aml_set_backend_data (obj data : option ptr) :
  keeps_wl_loop (aml_set_backend_data obj data).
Proof. unfold aml_set_backend_data. keeps. Qed.

Lemma keeps_aml_set_event_mask (h : option ptr) (mask : Z) :
  keeps_wl_loop (aml_set_event_mask h mask).
Proof. unfold aml_set_event_mask. keeps. Qed.

Lemma keeps_aml_emit (self obj : option ptr) (revents : Z) :
  keeps_wl_loop (aml_emit self obj revents).
Proof. unfold aml_emit. keeps. Qed.

Lemma keeps_aml_dispatch (self : option ptr) : keeps_wl_loop (aml_dispatch self).
Proof. unfold aml_dispatch. keeps. Qed.

Lemma keeps_wl_event_loop_add_fd (loop : option ptr) (fd mask : Z)
    (func : wl_callback) (data : option ptr) :
  keeps_wl_loop (wl_event_loop_add_fd loop fd mask func data).
Proof. unfold wl_event_loop_add_fd. keeps. Qed.

Lemma keeps_wl_event_loop_add_signal (loop : option ptr) (signo : Z)
    (func : wl_callback) (data : option ptr) :
  keeps_wl_loop (wl_event_loop_add_signal loop signo func data).
Proof. unfold wl_event_loop_add_signal. keeps. Qed.

Lemma keeps_wl_event_source_fd_update (source : option ptr) (mask : Z) :
  keeps_wl_loop (wl_event_source_fd_update source mask).
Proof. unfold wl_event_source_fd_update. keeps. Qed.

Lemma keeps_wl_event_source_remove (source : option ptr) :
  keeps_wl_loop (wl_event_source_remove source).
Proof. unfold wl_event_source_remove. keeps. Qed.

#[local] Hint Resolve keeps_aml_get_fd keeps_aml_get_event_mask
  keeps_aml_get_signo keeps_aml_get_backend_data keeps_aml_set_backend_data
  keeps_aml_set_event_mask keeps_aml_emit keeps_aml_dispatch
  keeps_wl_event_loop_add_fd keeps_wl_event_loop_add_signal
  keeps_wl_event_source_fd_update keeps_wl_event_source_remove : keeps.

Section GlobalLoopFacts.
Context `{EventBits}.

Lemma keeps_new_state (aml : option ptr) :
  keeps_wl_loop (wl_backend_new_state aml).
Proof. unfold wl_backend_new_state. keeps. Qed.

Lemma keeps_event_source_data_new (obj state : option ptr) :
  keeps_wl_loop (event_source_data_new obj state).
Proof. unfold event_source_data_new. keeps. Qed.

#[local] Hint Resolve keeps_new_state keeps_event_source_data_new : keeps.

Lemma keeps_on_fd_event (fd mask : Z) (userdata : option ptr) :
  keeps_wl_loop (wl_backend_on_fd_event fd mask userdata).
Proof. unfold wl_backend_on_fd_event. keeps. Qed.

Lemma keeps_on_signal (signo : Z) (userdata : option ptr) :
  keeps_wl_loop (wl_backend_on_signal signo userdata).
Proof. unfold wl_backend_on_signal. keeps. Qed.

#[local] Hint Resolve keeps_on_fd_event keeps_on_signal : keeps.

Lemma keeps_run_op (o : bridge_op) : keeps_wl_loop (run_op o).
Proof.
  destruct o; unfold run_op, wl_backend_del_state, wl_backend_exit,
    wl_backend_add_fd, wl_backend_mod_fd, wl_backend_del_fd,
    wl_backend_add_signal, wl_backend_del_signal,
    wl_event_source_fd_dispatch, wl_event_source_signal_dispatch; keeps.
Qed.

Lemma keeps_run_ops (os : list bridge_op) : keeps_wl_loop (run_ops os).
Proof.
  induction os as [|o os IH]; simpl.
  - apply keeps_ret.
  - apply keeps_bind; [apply keeps_run_op | intros _; exact IH].
Qed.

Lemma run_calloc_wl_backend_state (w : world) :
  calloc_wl_backend_state w
  = if next_ok (calloc_script w)
    then Some (Some (fresh (dom (states w))),
               set_states (<[fresh (dom (states w)) := zero_wl_backend_state]>
                             (states w))
                 (set_calloc_script (tail (calloc_script w)) w))
    else Some (None, set_calloc_script (tail (calloc_script w)) w).
Proof.
  unfold calloc_wl_backend_state, mbind, M_bind, pop_calloc_script.
  destruct (next_ok (calloc_script w)); reflexivity.
Qed.

Lemma run_assign_state (w : world) (p : ptr) (v : wl_backend_state)
    (f : wl_backend_state -> wl_backend_state) :
  states w !! p = Some v ->
  assign_state (Some p) f w
  = Some (tt, set_states (<[p := f v]> (states w)) w).
Proof.
  intros Hp. unfold assign_state. mstep ltac:(apply run_deref). reflexivity.
Qed.

Lemma run_new_state (w : world) (aml : option ptr) :
  wl_backend_new_state aml w
  = if next_ok (calloc_script w)
    then Some (Some (fresh (dom (states w))),
               set_states (<[fresh (dom (states w)) :=
                               {| st_aml := aml; st_loop := wl_loop w |}]>
                             (states w))
                 (set_calloc_script (tail (calloc_script w)) w))
    else Some (None, set_calloc_script (tail (calloc_script w)) w).
Proof.
  unfold wl_backend_new_state.
  destruct (next_ok (calloc_script w)) eqn:Hc.
  - mstep ltac:(rewrite run_calloc_wl_backend_state, Hc).
    mstep ltac:(eapply run_assign_state; cbn; apply lookup_insert_eq).
    mstep ltac:(reflexivity).
    mstep ltac:(eapply run_assign_state; cbn; apply lookup_insert_eq).
    unfold mret, M_ret. cbn. rewrite !insert_insert_eq. reflexivity.
  - mstep ltac:(rewrite run_calloc_wl_backend_state, Hc). reflexivity.
Qed.

Lemma new_state_loop (w w' : world) (aml : option ptr) (p : ptr) :
  wl_backend_new_state aml w = Some (Some p, w') ->
  states w' !! p = Some {| st_aml := aml; st_loop := wl_loop w |}.
Proof.
  rewrite run_new_state. destruct (next_ok (calloc_script w)); [|discriminate].
  intros Hrun. inversion Hrun. cbn. apply lookup_insert_eq.
Qed.

Lemma run_aml_wl_loop_init (w : world) (L : option ptr) :
  exists r w', aml_wl_loop_init L w = Some (r, w') /\ wl_loop w' = L
    /\ (forall a, r = Some a ->
          exists s, amls w' !! a = Some s
                    /\ states w' !! s = Some {| st_aml := Some a;
                                                st_loop := L |}).
Proof.
  unfold aml_wl_loop_init, aml_new.
  mstep ltac:(reflexivity). mstep ltac:(reflexivity).
  unfold mbind, M_bind. rewrite run_new_state. cbn -[fresh].
  destruct (next_ok (calloc_script w)).
  - eexists. eexists. split; [reflexivity|]. cbn -[fresh].
    split; [reflexivity|].
    intros a Ha. inversion Ha. eexists. rewrite !lookup_insert_eq.
    split; reflexivity.
  - eexists. eexists. split; [reflexivity|]. cbn.
    split; [reflexivity|]. intros a Ha. discriminate.
Qed.

(** C10 (confirmed): the state constructor takes the inner loop and nothing
    else, and never fails to return; the state it returns holds the value
    that the static variable [wl_loop] has at the call. [aml_wl_loop_init]
    writes its argument to [wl_loop] and no other operation of the bridge
    writes it. So a state created after [aml_wl_loop_init L], with any
    calls other than [aml_wl_loop_init] in between, refers to [L] (also the
    state that [aml_wl_loop_init L] creates for its own inner loop); and
    after a second call [aml_wl_loop_init L2] a state created for the inner
    loop of the first call refers to [L2]. *)
Theorem new_state_reads_wl_loop :
  (forall (w : world) (aml : option ptr),
      exists r w',
        wl_backend_new_state aml w = Some (r, w')
        /\ (next_ok (calloc_script w) = true -> r <> None)
        /\ (forall p, r = Some p ->
              states w' !! p = Some {| st_aml := aml; st_loop := wl_loop w |}))
  /\ (forall (w : world) (L : option ptr),
        exists r w',
          aml_wl_loop_init L w = Some (r, w') /\ wl_loop w' = L
          /\ (forall a, r = Some a ->
                exists s, amls w' !! a = Some s
                          /\ states w' !! s = Some {| st_aml := Some a;
                                                      st_loop := L |}))
  /\ (forall (w w1 w2 w3 : world) (L r aml : option ptr)
             (ops : list bridge_op) (p : ptr),
        aml_wl_loop_init L w = Some (r, w1) ->
        run_ops ops w1 = Some (tt, w2) ->
        wl_backend_new_state aml w2 = Some (Some p, w3) ->
        states w3 !! p = Some {| st_aml := aml; st_loop := L |})
  /\ (forall (w w1 w2 w3 w4 w5 : world) (L1 L2 r2 : option ptr)
             (ops1 ops2 : list bridge_op) (a1 p : ptr),
        aml_wl_loop_init L1 w = Some (Some a1, w1) ->
        run_ops ops1 w1 = Some (tt, w2) ->
        aml_wl_loop_init L2 w2 = Some (r2, w3) ->
        run_ops ops2 w3 = Some (tt, w4) ->
        wl_backend_new_state (Some a1) w4 = Some (Some p, w5) ->
        states w5 !! p = Some {| st_aml := Some a1; st_loop := L2 |}).
Proof.
  assert (Hafter : forall (w w1 w2 w3 : world) (L r aml : option ptr)
                          (ops : list bridge_op) (p : ptr),
             aml_wl_loop_init L w = Some (r, w1) ->
             run_ops ops w1 = Some (tt, w2) ->
             wl_backend_new_state aml w2 = Some (Some p, w3) ->
             states w3 !! p = Some {| st_aml := aml; st_loop := L |}).
  { intros w w1 w2 w3 L r aml ops p Hinit Hops Hnew.
    rewrite (new_state_loop w2 w3 aml p Hnew).
    rewrite (keeps_run_ops ops w1 tt w2 Hops).
    destruct (run_aml_wl_loop_init w L) as (r' & w1' & Hrun & Hloop & _).
    rewrite Hinit in Hrun. inversion Hrun. subst. reflexivity. }
  split; [|split; [|split]].
  - intros w aml. rewrite run_new_state.
    destruct (next_ok (calloc_script w)); eexists; eexists;
      (split; [reflexivity|]); split.
    + discriminate.
    + intros p Hp. inversion Hp. cbn. apply lookup_insert_eq.
    + discriminate.
    + discriminate.
  - intros w L. apply run_aml_wl_loop_init.
  - exact Hafter.
  - intros w w1 w2 w3 w4 w5 L1 L2 r2 ops1 ops2 a1 p _ _ Hinit Hops Hnew.
    exact (Hafter w2 w3 w4 w5 L2 r2 (Some a1) ops2 p Hinit Hops Hnew).
Qed.
End GlobalLoopFacts.

Lemma new_state_reads_wl_loop_witness :
  aml_wl_loop_init (Some 5%positive) empty_world
  = Some (Some 1%positive, example_init_first)
  /\ aml_wl_loop_init (Some 6%positive) example_init_first
     = Some (Some 2%positive, example_init_second)
  /\ wl_backend_new_state (Some 1%positive) example_init_second
     = Some (Some 3%positive, example_init_third)
  /\ states example_init_third !! 3%positive
     = Some {| st_aml := Some 1%positive; st_loop := Some 6%positive |}.
Proof.
  destruct (@new_state_reads_wl_loop linux_bits) as (_ & _ & _ & Hsecond).
  assert (H1 : aml_wl_loop_init (Some 5%positive) empty_world
               = Some (Some 1%positive, example_init_first))
    by (vm_compute; reflexivity).
  assert (H2 : aml_wl_loop_init (Some 6%positive) example_init_first
               = Some (Some 2%positive, example_init_second))
    by (vm_compute; reflexivity).
  assert (H3 : wl_backend_new_state (Some 1%positive) example_init_second
               = Some (Some 3%positive, example_init_third))
    by (vm_compute; reflexivity).
  repeat apply conj; try assumption.
  exact (Hsecond empty_world example_init_first example_init_first
           example_init_second example_init_second example_init_third
           (Some 5%positive) (Some 6%positive) (Some 2%positive) [] []
           1%positive 3%positive H1 eq_refl H2 eq_refl H3).
Defined.

(** * Further properties of the bridge *)

(** ** Signal watchers *)

Lemma run_del_signal (w : world) (state : option ptr) (sig data source : ptr)
    (o : aml_object) (d : event_source_data) (reg : wl_event_source) :
  aml_objs w !! sig = Some o -> backend_data o = Some data ->
  entries w !! data = Some d -> esd_src d = Some source ->
  wl_sources w !! source = Some reg ->
  wl_backend_del_signal state (Some sig) w
  = Some (0,
      set_entries (delete data (entries w))
        (set_wl_log (wl_log w ++ [call_wl_event_source_remove source])
           (set_wl_sources (delete source (wl_sources w)) w))).
Proof.
  intros Ho Hb Hd Hs Hreg. unfold wl_backend_del_signal.
  mstep ltac:(eapply run_aml_get_backend_data). rewrite Hb.
  mstep ltac:(apply run_deref). rewrite Hs.
  mstep ltac:(eapply run_wl_event_source_remove).
  mstep ltac:(eapply run_free_event_source_data).
  reflexivity.
Qed.

(** A call of [wl_backend_add_signal] that returns 0 had live arguments, and
    both its allocation and its host registration succeeded. *)
Lemma add_signal_returns_0 (w w' : world) (state sig : option ptr) :
  wl_backend_add_signal state sig w = Some (0, w') ->
  exists (s g l : ptr) (st : wl_backend_state) (o : aml_object) (signo : Z),
    state = Some s /\ sig = Some g
    /\ states w !! s = Some st /\ st_loop st = Some l
    /\ aml_objs w !! g = Some o /\ obj_kind o = aml_signal signo
    /\ next_ok (calloc_script w) = true /\ next_ok (wl_script w) = true.
Proof.
  unfold wl_backend_add_signal. intros Hrun.
  destruct sig as [g|]; [|discriminate].
  destruct (aml_objs w !! g) as [o|] eqn:Ho;
    [|rewrite bind_fault in Hrun; [discriminate|];
      unfold aml_get_signo; apply bind_fault; unfold deref; rewrite Ho;
      reflexivity].
  destruct (obj_kind o) as [fd mask|signo] eqn:Hk;
    [rewrite bind_fault in Hrun; [discriminate|];
     unfold aml_get_signo; erewrite bind_run by (apply run_deref; exact Ho);
     cbn beta iota; rewrite Hk; reflexivity|].
  revert Hrun.
  mstep ltac:(eapply run_aml_get_signo).
  destruct (next_ok (calloc_script w)) eqn:Hc;
    [|mstep ltac:(apply run_event_source_data_new_fail); discriminate].
  mstep ltac:(apply run_event_source_data_new_ok).
  destruct state as [s|]; [|discriminate].
  destruct (states w !! s) as [st|] eqn:Hst;
    [|rewrite bind_fault; [discriminate|];
      unfold deref; cbn; rewrite Hst; reflexivity].
  mstep ltac:(apply run_deref).
  destruct (st_loop st) as [l|] eqn:Hl; [|discriminate].
  destruct (next_ok (wl_script w)) eqn:Hh.
  - intros _. exists s, g, l, st, o, signo. repeat apply conj; auto.
  - mstep ltac:(apply run_wl_event_loop_add_signal_fail).
    mstep ltac:(eapply run_free_event_source_data; cbn;
                apply lookup_insert_eq).
    discriminate.
Qed.

(** X1: every call of [wl_backend_add_signal] that returns 0 has allocated a
    new entry that refers to the signal watcher and to the backend state and
    holds the handle the host's register-signal call returned; the watcher's
    backend-private slot holds that entry; the host recorded the registration
    for the watcher's signal number with the signal relay as callback and the
    entry as context. The call returns 0 whenever its arguments are live and
    the allocation and the host's register-signal call succeed. *)
Theorem add_signal_success :
  (forall (w w' : world) (state sig : option ptr),
      wl_backend_add_signal state sig w = Some (0, w') ->
      exists (s g l : ptr) (st : wl_backend_state) (o : aml_object)
             (signo : Z),
        state = Some s /\ sig = Some g
        /\ states w !! s = Some st /\ st_loop st = Some l
        /\ aml_objs w !! g = Some o /\ obj_kind o = aml_signal signo
        /\ let data := fresh (dom (entries w)) in
           let source := fresh (dom (wl_sources w)) in
           entries w !! data = None
           /\ wl_sources w !! source = None
           /\ wl_log w' = wl_log w ++ [call_wl_event_loop_add_signal l signo
                                         fn_wl_backend_on_signal
                                         (Some data) (Some source)]
           /\ wl_sources w' = <[source := signal_registration l signo
                                            fn_wl_backend_on_signal
                                            (Some data)]> (wl_sources w)
           /\ entries w' = <[data := {| esd_aml_obj := Some g;
                                        esd_state := Some s;
                                        esd_src := Some source |}]> (entries w)
           /\ aml_objs w' = <[g := {| obj_kind := obj_kind o;
                                      backend_data := Some data |}]>
                              (aml_objs w)
           /\ states w' = states w)
  /\ (forall (w : world) (state sig l : ptr) (st : wl_backend_state)
             (o : aml_object) (signo : Z),
        states w !! state = Some st -> st_loop st = Some l ->
        aml_objs w !! sig = Some o -> obj_kind o = aml_signal signo ->
        next_ok (calloc_script w) = true -> next_ok (wl_script w) = true ->
        exists w', wl_backend_add_signal (Some state) (Some sig) w
                   = Some (0, w')).
Proof.
  split.
  - intros w w' state sig Hrun.
    destruct (add_signal_returns_0 w w' state sig Hrun)
      as (s & g & l & st & o & signo
          & -> & -> & Hst & Hl & Ho & Hk & Hc & Hh).
    exists s, g, l, st, o, signo.
    rewrite (run_add_signal_ok w s g l st o signo Hst Hl Ho Hk Hc Hh) in Hrun.
    inversion Hrun. cbn.
    repeat apply conj; try apply fresh_lookup_None; auto.
  - intros w state sig l st o signo Hst Hl Ho Hk Hc Hh.
    eexists. eapply run_add_signal_ok; eauto.
Qed.

Lemma add_signal_success_witness :
  exists w',
    wl_backend_add_signal (Some 1%positive) (Some 8%positive) example_world
    = Some (0, w')
    /\ entries w' !! 1%positive = Some example_signal_entry
    /\ wl_sources w' !! 1%positive = Some example_signal_registration.
Proof.
  destruct add_signal_success as [Hall Hrun].
  destruct (Hrun example_world 1%positive 8%positive 5%positive example_state
              example_signal 15) as [w' Hw']; try reflexivity.
  exists w'. split; [exact Hw'|].
  destruct (Hall example_world w' (Some 1%positive) (Some 8%positive) Hw')
    as (s & g & l & st & o & signo
        & Es & Eg & Hst & Hl & Ho & Hk & _ & _ & _ & Hsrc & Hent & _).
  inversion Es. inversion Eg. subst s g.
  assert (Eo : o = example_signal)
    by (apply (inj Some); rewrite <- Ho; reflexivity).
  assert (Est : st = example_state)
    by (apply (inj Some); rewrite <- Hst; reflexivity).
  subst o st. inversion Hk. inversion Hl. subst signo l.
  rewrite Hsrc, Hent. split; reflexivity.
Defined.

(** X2: when the allocation of the entry fails, or the allocation succeeds
    and the host's register-signal call fails, [wl_backend_add_signal]
    returns -1 and rolls back: the live entries, the signal watcher (so its
    backend-private slot) and the host registrations are those from before
    the call. *)
Theorem add_signal_failure_rollback (w : world) (state sig l : ptr)
    (st : wl_backend_state) (o : aml_object) (signo : Z) :
  states w !! state = Some st -> st_loop st = Some l ->
  aml_objs w !! sig = Some o -> obj_kind o = aml_signal signo ->
  next_ok (calloc_script w) = false \/ next_ok (wl_script w) = false ->
  exists w',
    wl_backend_add_signal (Some state) (Some sig) w = Some (-1, w')
    /\ entries w' = entries w
    /\ aml_objs w' = aml_objs w
    /\ wl_sources w' = wl_sources w.
Proof.
  intros Hst Hl Ho Hk Hfail.
  destruct (run_add_signal_fail w state sig l st o signo)
    as (w' & Hrun & He & Hobjs & Hsrc & _); auto.
  exists w'. auto.
Qed.

Lemma add_signal_failure_rollback_witness :
  exists w',
    wl_backend_add_signal (Some 1%positive) (Some 8%positive)
      (set_calloc_script [false] example_world) = Some (-1, w')
    /\ entries w' = ∅
    /\ aml_objs w' !! 8%positive = Some example_signal.
Proof.
  destruct (add_signal_failure_rollback
              (set_calloc_script [false] example_world) 1 8 5 example_state
              example_signal 15)
    as (w' & Hrun & Hent & Hobj & _); try reflexivity.
  - left. reflexivity.
  - exists w'. rewrite Hobj. auto.
Defined.

(** X3: for a signal watcher with an attached entry,
    [wl_backend_del_signal] returns 0, removes the entry's registration from
    the host loop with one call of the host's remove, frees the entry and
    leaves the watcher as it is. After [wl_backend_add_signal] and then
    [wl_backend_del_signal] on one watcher the live entries and the host
    registrations are those from before the two calls. *)
Theorem del_signal_unregisters_and_frees :
  (forall (w : world) (state : option ptr) (sig data source : ptr)
          (o : aml_object) (d : event_source_data) (reg : wl_event_source),
      aml_objs w !! sig = Some o -> backend_data o = Some data ->
      entries w !! data = Some d -> esd_src d = Some source ->
      wl_sources w !! source = Some reg ->
      exists w',
        wl_backend_del_signal state (Some sig) w = Some (0, w')
        /\ wl_sources w' = delete source (wl_sources w)
        /\ wl_log w' = wl_log w ++ [call_wl_event_source_remove source]
        /\ entries w' = delete data (entries w)
        /\ aml_objs w' = aml_objs w)
  /\ (forall (w : world) (state sig l : ptr) (st : wl_backend_state)
             (o : aml_object) (signo : Z),
        states w !! state = Some st -> st_loop st = Some l ->
        aml_objs w !! sig = Some o -> obj_kind o = aml_signal signo ->
        next_ok (calloc_script w) = true -> next_ok (wl_script w) = true ->
        exists w1 w2,
          wl_backend_add_signal (Some state) (Some sig) w = Some (0, w1)
          /\ wl_backend_del_signal (Some state) (Some sig) w1 = Some (0, w2)
          /\ entries w2 = entries w
          /\ wl_sources w2 = wl_sources w).
Proof.
  split.
  - intros w state sig data source o d reg Ho Hb Hd Hs Hreg.
    eexists. split; [eapply run_del_signal; eauto|].
    cbn. repeat apply conj; reflexivity.
  - intros w state sig l st o signo Hst Hl Ho Hk Hc Hh.
    eexists. eexists.
    split; [eapply run_add_signal_ok; eauto|].
    split.
    + eapply run_del_signal; cbn.
      * apply lookup_insert_eq.
      * reflexivity.
      * apply lookup_insert_eq.
      * reflexivity.
      * apply lookup_insert_eq.
    + cbn. rewrite !delete_insert_id by apply fresh_lookup_None.
      split; reflexivity.
Qed.

Lemma del_signal_unregisters_and_frees_witness :
  exists w',
    wl_backend_del_signal (Some 1%positive) (Some 8%positive)
      example_signal_registered = Some (0, w')
    /\ wl_sources w' = ∅ /\ entries w' = ∅.
Proof.
  destruct del_signal_unregisters_and_frees as [Hdel _].
  destruct (Hdel example_signal_registered (Some 1%positive) 8%positive
              1%positive 1%positive
              {| obj_kind := aml_signal 15; backend_data := Some 1%positive |}
              example_signal_entry example_signal_registration)
    as (w' & Hrun & Hsrc & _ & Hent & _); try reflexivity.
  exists w'. rewrite Hsrc, Hent. repeat apply conj.
  - exact Hrun.
  - vm_compute. reflexivity.
  - vm_compute. reflexivity.
Defined.

(** ** Calls outside the contract, and repeated calls *)

Section ContractFacts.
Context `{EventBits}.

Lemma deref_not_live {A : Type} (heap : world -> gmap ptr A) (p : option ptr)
    (w : world) :
  (forall a, p = Some a -> heap w !! a = None) -> deref heap p w = None.
Proof.
  intros Hp. unfold deref. destruct p as [a|]; [|reflexivity].
  rewrite (Hp a eq_refl). reflexivity.
Qed.

Lemma mod_fd_not_live (w : world) (state : option ptr) (h : ptr)
    (o : aml_object) :
  aml_objs w !! h = Some o ->
  (forall d, backend_data o = Some d -> entries w !! d = None) ->
  wl_backend_mod_fd state (Some h) w = None.
Proof.
  intros Ho Hslot. unfold wl_backend_mod_fd.
  mstep ltac:(eapply run_aml_get_backend_data).
  destruct (obj_kind o) as [fd mask|signo] eqn:Hk.
  - mstep ltac:(eapply run_aml_get_event_mask).
    apply bind_fault. apply deref_not_live. exact Hslot.
  - apply bind_fault. unfold aml_get_event_mask.
    mstep ltac:(apply run_deref). rewrite Hk. reflexivity.
Qed.

Lemma del_fd_not_live (w : world) (state : option ptr) (h : ptr)
    (o : aml_object) :
  aml_objs w !! h = Some o ->
  (forall d, backend_data o = Some d -> entries w !! d = None) ->
  wl_backend_del_fd state (Some h) w = None.
Proof.
  intros Ho Hslot. unfold wl_backend_del_fd.
  mstep ltac:(eapply run_aml_get_backend_data).
  apply bind_fault. apply deref_not_live. exact Hslot.
Qed.

Lemma del_signal_not_live (w : world) (state : option ptr) (h : ptr)
    (o : aml_object) :
  aml_objs w !! h = Some o ->
  (forall d, backend_data o = Some d -> entries w !! d = None) ->
  wl_backend_del_signal state (Some h) w = None.
Proof.
  intros Ho Hslot. unfold wl_backend_del_signal.
  mstep ltac:(eapply run_aml_get_backend_data).
  apply bind_fault. apply deref_not_live. exact Hslot.
Qed.

(** X4: [wl_backend_mod_fd], [wl_backend_del_fd] and
    [wl_backend_del_signal] dereference the watcher's backend-private slot
    without a test, so on a watcher whose slot is null or holds an entry that
    is not live their behaviour is undefined. This is the case after
    [wl_backend_del_fd], which frees the entry and leaves the slot: a second
    [wl_backend_del_fd], or a [wl_backend_mod_fd], on the same watcher is
    undefined. *)
Theorem lifecycle_needs_live_entry :
  (forall (w : world) (state : option ptr) (h : ptr) (o : aml_object),
      aml_objs w !! h = Some o ->
      (forall d, backend_data o = Some d -> entries w !! d = None) ->
      wl_backend_mod_fd state (Some h) w = None
      /\ wl_backend_del_fd state (Some h) w = None
      /\ wl_backend_del_signal state (Some h) w = None)
  /\ (forall (w : world) (state handler l : ptr) (st : wl_backend_state)
             (o : aml_object) (fd mask : Z),
        states w !! state = Some st -> st_loop st = Some l ->
        aml_objs w !! handler = Some o -> obj_kind o = aml_handler fd mask ->
        next_ok (calloc_script w) = true -> next_ok (wl_script w) = true ->
        exists w1 w2,
          wl_backend_add_fd (Some state) (Some handler) w = Some (0, w1)
          /\ wl_backend_del_fd (Some state) (Some handler) w1 = Some (0, w2)
          /\ wl_backend_del_fd (Some state) (Some handler) w2 = None
          /\ wl_backend_mod_fd (Some state) (Some handler) w2 = None).
Proof.
  split.
  - intros w state h o Ho Hslot. repeat apply conj.
    + eapply mod_fd_not_live; eauto.
    + eapply del_fd_not_live; eauto.
    + eapply del_signal_not_live; eauto.
  - intros w state handler l st o fd mask Hst Hl Ho Hk Hc Hh.
    eexists. eexists.
    split; [eapply run_add_fd_ok; eauto|].
    split.
    { eapply run_del_fd; cbn.
      - apply lookup_insert_eq.
      - reflexivity.
      - apply lookup_insert_eq.
      - reflexivity.
      - apply lookup_insert_eq. }
    split.
    + eapply del_fd_not_live; cbn.
      * apply lookup_insert_eq.
      * cbn. intros d Hd. inversion Hd. apply lookup_delete_eq.
    + eapply mod_fd_not_live; cbn.
      * apply lookup_insert_eq.
      * cbn. intros d Hd. inversion Hd. apply lookup_delete_eq.
Qed.

(** X5: [wl_backend_add_fd] does not look at the watcher's backend-private
    slot before it writes it. Two successful calls on one watcher make two
    entries and two host registrations, and the slot holds the second entry
    only; a following [wl_backend_del_fd] removes the second pair, and the
    first entry stays live and registered with the host loop while no slot
    refers to it. *)
Theorem add_fd_twice_leaks (w : world) (state handler l : ptr)
    (st : wl_backend_state) (o : aml_object) (fd mask : Z) :
  states w !! state = Some st -> st_loop st = Some l ->
  aml_objs w !! handler = Some o -> obj_kind o = aml_handler fd mask ->
  next_ok (calloc_script w) = true -> next_ok (wl_script w) = true ->
  next_ok (tail (calloc_script w)) = true ->
  next_ok (tail (wl_script w)) = true ->
  exists (w1 w2 w3 : world) (d1 d2 s1 s2 : ptr),
    wl_backend_add_fd (Some state) (Some handler) w = Some (0, w1)
    /\ wl_backend_add_fd (Some state) (Some handler) w1 = Some (0, w2)
    /\ wl_backend_del_fd (Some state) (Some handler) w2 = Some (0, w3)
    /\ d1 <> d2 /\ s1 <> s2
    /\ entries w !! d1 = None /\ entries w !! d2 = None
    /\ backend_data <$> aml_objs w2 !! handler = Some (Some d2)
    /\ entries w2 !! d1 = Some {| esd_aml_obj := Some handler;
                                  esd_state := Some state;
                                  esd_src := Some s1 |}
    /\ entries w2 !! d2 = Some {| esd_aml_obj := Some handler;
                                  esd_state := Some state;
                                  esd_src := Some s2 |}
    /\ entries w3 = <[d1 := {| esd_aml_obj := Some handler;
                               esd_state := Some state;
                               esd_src := Some s1 |}]> (entries w)
    /\ wl_sources w3 = <[s1 := fd_registration l fd (to_host mask)
                                 fn_wl_backend_on_fd_event (Some d1)]>
                         (wl_sources w)
    /\ backend_data <$> aml_objs w3 !! handler = Some (Some d2).
Proof.
  intros Hst Hl Ho Hk Hc Hh Hc2 Hh2.
  pose proof (run_add_fd_ok w state handler l st o fd mask Hst Hl Ho Hk Hc Hh)
    as Hrun1. cbv zeta in Hrun1.
  set (d1 := fresh (dom (entries w))) in *.
  set (s1 := fresh (dom (wl_sources w))) in *.
  set (e1 := {| esd_aml_obj := Some handler; esd_state := Some state;
                esd_src := Some s1 |}) in *.
  set (r1 := fd_registration l fd (to_host mask) fn_wl_backend_on_fd_event
               (Some d1)) in *.
  set (o1 := {| obj_kind := obj_kind o; backend_data := Some d1 |}) in *.
  match type of Hrun1 with _ = Some (_, ?x) => set (w1 := x) in * end.
  assert (Hrun2 := run_add_fd_ok w1 state handler l st o1 fd mask).
  cbv zeta in Hrun2.
  set (d2 := fresh (dom (entries w1))) in *.
  set (s2 := fresh (dom (wl_sources w1))) in *.
  assert (Hd12 : d1 <> d2).
  { intros E. pose proof (fresh_lookup_None (entries w1)) as Hf.
    fold d2 in Hf. rewrite <- E in Hf. subst w1. cbn in Hf.
    rewrite lookup_insert_eq in Hf. discriminate. }
  assert (Hs12 : s1 <> s2).
  { intros E. pose proof (fresh_lookup_None (wl_sources w1)) as Hf.
    fold s2 in Hf. rewrite <- E in Hf. subst w1. cbn in Hf.
    rewrite lookup_insert_eq in Hf. discriminate. }
  assert (Hd2 : entries w !! d2 = None).
  { pose proof (fresh_lookup_None (entries w1)) as Hf. fold d2 in Hf.
    subst w1. cbn in Hf. rewrite lookup_insert_ne in Hf by exact Hd12.
    exact Hf. }
  assert (Hs2 : wl_sources w !! s2 = None).
  { pose proof (fresh_lookup_None (wl_sources w1)) as Hf. fold s2 in Hf.
    subst w1. cbn in Hf. rewrite lookup_insert_ne in Hf by exact Hs12.
    exact Hf. }
  specialize (Hrun2 Hst Hl).
  assert (Ho1 : aml_objs w1 !! handler = Some o1)
    by (subst w1; cbn; apply lookup_insert_eq).
  specialize (Hrun2 Ho1 Hk Hc2 Hh2).
  match type of Hrun2 with _ = Some (_, ?x) => set (w2 := x) in * end.
  eexists w1, w2, _, d1, d2, s1, s2.
  split; [exact Hrun1|]. split; [exact Hrun2|].
  split.
  { eapply run_del_fd; subst w2; cbn.
    - apply lookup_insert_eq.
    - reflexivity.
    - apply lookup_insert_eq.
    - reflexivity.
    - apply lookup_insert_eq. }
  subst w2 w1. cbn.
  rewrite !lookup_insert_eq.
  rewrite (lookup_insert_ne _ d2 d1) by (intros E; apply Hd12; auto).
  rewrite lookup_insert_eq.
  rewrite !delete_insert_id
    by (rewrite lookup_insert_ne by exact Hd12 || exact Hs12; assumption).
  repeat apply conj; try reflexivity; auto.
  apply fresh_lookup_None.
Qed.
End ContractFacts.

Lemma lifecycle_needs_live_entry_witness :
  @wl_backend_mod_fd linux_bits (Some 1%positive) (Some 7%positive)
    example_world = None
  /\ wl_backend_del_fd (Some 1%positive) (Some 7%positive) example_world = None
  /\ exists w1 w2,
       @wl_backend_add_fd linux_bits (Some 1%positive) (Some 7%positive)
         example_world = Some (0, w1)
       /\ wl_backend_del_fd (Some 1%positive) (Some 7%positive) w1
          = Some (0, w2)
       /\ wl_backend_del_fd (Some 1%positive) (Some 7%positive) w2 = None.
Proof.
  destruct (@lifecycle_needs_live_entry linux_bits) as [Hslot Htwice].
  destruct (Hslot example_world (Some 1%positive) 7%positive example_handler)
    as (Hmod & Hdel & _); [reflexivity | discriminate |].
  destruct (Htwice example_world 1%positive 7%positive 5%positive
              example_state example_handler 7 1)
    as (w1 & w2 & Hadd & Hdel1 & Hdel2 & _); try reflexivity.
  split; [exact Hmod|]. split; [exact Hdel|].
  exists w1, w2. auto.
Defined.

Lemma add_fd_twice_leaks_witness :
  exists w1 w2 w3,
    @wl_backend_add_fd linux_bits (Some 1%positive) (Some 7%positive)
      example_world = Some (0, w1)
    /\ @wl_backend_add_fd linux_bits (Some 1%positive) (Some 7%positive) w1
       = Some (0, w2)
    /\ wl_backend_del_fd (Some 1%positive) (Some 7%positive) w2 = Some (0, w3)
    /\ size (entries w3) = 1%nat
    /\ size (wl_sources w3) = 1%nat.
Proof.
  destruct (@add_fd_twice_leaks linux_bits example_world 1%positive 7%positive
              5%positive example_state example_handler 7 1)
    as (w1 & w2 & w3 & d1 & d2 & s1 & s2 & Hadd1 & Hadd2 & Hdel & _ & _
        & _ & _ & _ & _ & _ & Hent & Hsrc & _); try reflexivity.
  exists w1, w2, w3. rewrite Hent, Hsrc.
  repeat apply conj; try assumption.
  - change (entries example_world) with (∅ : gmap ptr event_source_data).
    rewrite insert_empty. apply map_size_singleton.
  - change (wl_sources example_world) with (∅ : gmap ptr wl_event_source).
    rewrite insert_empty. apply map_size_singleton.
Defined.

(** ** The backend state *)

Lemma run_del_state (w : world) (s : ptr) (st : wl_backend_state) :
  states w !! s = Some st ->
  wl_backend_del_state (Some s) w
  = Some (tt, set_states (delete s (states w)) w).
Proof.
  intros Hs. unfold wl_backend_del_state, free_wl_backend_state.
  mstep ltac:(apply run_deref). reflexivity.
Qed.

Lemma del_state_not_live (w : world) (s : ptr) :
  states w !! s = None -> wl_backend_del_state (Some s) w = None.
Proof.
  intros Hs. unfold wl_backend_del_state, free_wl_backend_state.
  apply bind_fault. unfold deref. rewrite Hs. reflexivity.
Qed.

Section StateFacts.
Context `{EventBits}.

(** X6: [wl_backend_del_state] frees the state and nothing else: the entries
    and the host registrations stay as they are, also those made for the
    freed state, and both relays are undefined on such an entry, because they
    read the inner loop through the freed state. On a null pointer
    [wl_backend_del_state] does nothing, and on a state that is not live (a
    second call on one state) its behaviour is undefined. *)
Theorem del_state_frees_only_the_state :
  (forall (w : world) (s : ptr) (st : wl_backend_state),
      states w !! s = Some st ->
      exists w',
        wl_backend_del_state (Some s) w = Some (tt, w')
        /\ states w' = delete s (states w)
        /\ entries w' = entries w
        /\ wl_sources w' = wl_sources w
        /\ wl_log w' = wl_log w
        /\ wl_backend_del_state (Some s) w' = None
        /\ (forall (d : ptr) (e : event_source_data) (fd m signo : Z),
              entries w !! d = Some e -> esd_state e = Some s ->
              wl_backend_on_fd_event fd m (Some d) w' = None
              /\ wl_backend_on_signal signo (Some d) w' = None))
  /\ (forall w : world, wl_backend_del_state None w = Some (tt, w))
  /\ (forall (w : world) (s : ptr),
        states w !! s = None -> wl_backend_del_state (Some s) w = None).
Proof.
  split; [|split].
  - intros w s st Hs. eexists. split; [apply (run_del_state w s st Hs)|].
    cbn. repeat apply conj; try reflexivity.
    + apply del_state_not_live. cbn. apply lookup_delete_eq.
    + intros d e fd m signo He Hes. split.
      * unfold wl_backend_on_fd_event. cbv zeta.
        mstep ltac:(apply run_deref). rewrite Hes.
        apply bind_fault. unfold deref. cbn.
        rewrite lookup_delete_eq. reflexivity.
      * unfold wl_backend_on_signal. cbv zeta.
        mstep ltac:(apply run_deref). rewrite Hes.
        apply bind_fault. unfold deref. cbn.
        rewrite lookup_delete_eq. reflexivity.
  - intros w. reflexivity.
  - intros w s Hs. apply del_state_not_live. exact Hs.
Qed.

(** X7: a state that [wl_backend_new_state] returned is released by
    [wl_backend_del_state]: after the two calls the live states are those
    from before. When the allocation fails [wl_backend_new_state] returns
    null and no state is live that was not before. *)
Theorem new_state_del_state (w : world) (aml : option ptr) :
  (next_ok (calloc_script w) = true ->
   exists (p : ptr) (w1 w2 : world),
     wl_backend_new_state aml w = Some (Some p, w1)
     /\ states w !! p = None
     /\ wl_backend_del_state (Some p) w1 = Some (tt, w2)
     /\ states w2 = states w)
  /\ (next_ok (calloc_script w) = false ->
      exists w1, wl_backend_new_state aml w = Some (None, w1)
                 /\ states w1 = states w).
Proof.
  split; intros Hc.
  - eexists. eexists. eexists.
    split; [rewrite run_new_state, Hc; reflexivity|].
    split; [apply fresh_lookup_None|].
    split; [eapply run_del_state; cbn; apply lookup_insert_eq|].
    cbn. apply delete_insert_id. apply fresh_lookup_None.
  - eexists. split; [rewrite run_new_state, Hc; reflexivity|]. reflexivity.
Qed.

(** ** Registration and delivery together *)

(** X8: after a successful [wl_backend_add_fd] on a handler, when the host
    loop reports readiness [m] on the registration that the call made, the
    inner loop receives exactly one emission, on that handler, with the mask
    [to_abstract m], and then one dispatch pass; the entries and the
    registrations are not changed by the delivery. *)
Theorem add_fd_then_ready (w : world) (state handler l a s' : ptr)
    (st : wl_backend_state) (o : aml_object) (fd mask m : Z) :
  states w !! state = Some st -> st_loop st = Some l ->
  st_aml st = Some a -> amls w !! a = Some s' ->
  aml_objs w !! handler = Some o -> obj_kind o = aml_handler fd mask ->
  next_ok (calloc_script w) = true -> next_ok (wl_script w) = true ->
  exists w1 w2,
    wl_backend_add_fd (Some state) (Some handler) w = Some (0, w1)
    /\ wl_event_source_fd_dispatch (Some (fresh (dom (wl_sources w)))) m w1
       = Some (0, w2)
    /\ aml_log w2 = aml_log w ++ [call_aml_emit a handler (to_abstract m);
                                  call_aml_dispatch a]
    /\ entries w2 = entries w1
    /\ wl_sources w2 = wl_sources w1
    /\ aml_objs w2 = aml_objs w1.
Proof.
  intros Hst Hl Ha Haml Ho Hk Hc Hh. eexists. eexists.
  split; [eapply run_add_fd_ok; eauto|].
  split.
  - unfold wl_event_source_fd_dispatch.
    mstep ltac:(apply run_deref; cbn; apply lookup_insert_eq).
    unfold wl_backend_on_fd_event. cbv zeta.
    eapply run_relay; cbn; rewrite ?lookup_insert_eq; eauto.
  - cbn. repeat apply conj; reflexivity.
Qed.
End StateFacts.

(** X9: after a successful [wl_backend_add_signal] on a signal watcher, when
    the host loop delivers the signal to the registration that the call made,
    the inner loop receives exactly one emission, on that watcher, with the
    mask 0, and then one dispatch pass; the entries and the registrations are
    not changed by the delivery. *)
Theorem add_signal_then_delivered (w : world) (state sig l a s' : ptr)
    (st : wl_backend_state) (o : aml_object) (signo : Z) :
  states w !! state = Some st -> st_loop st = Some l ->
  st_aml st = Some a -> amls w !! a = Some s' ->
  aml_objs w !! sig = Some o -> obj_kind o = aml_signal signo ->
  next_ok (calloc_script w) = true -> next_ok (wl_script w) = true ->
  exists w1 w2,
    wl_backend_add_signal (Some state) (Some sig) w = Some (0, w1)
    /\ wl_event_source_signal_dispatch (Some (fresh (dom (wl_sources w)))) w1
       = Some (0, w2)
    /\ aml_log w2 = aml_log w ++ [call_aml_emit a sig 0; call_aml_dispatch a]
    /\ entries w2 = entries w1
    /\ wl_sources w2 = wl_sources w1
    /\ aml_objs w2 = aml_objs w1.
Proof.
  intros Hst Hl Ha Haml Ho Hk Hc Hh. eexists. eexists.
  split; [eapply run_add_signal_ok; eauto|].
  split.
  - unfold wl_event_source_signal_dispatch.
    mstep ltac:(apply run_deref; cbn; apply lookup_insert_eq).
    unfold wl_backend_on_signal. cbv zeta.
    eapply run_relay; cbn; rewrite ?lookup_insert_eq; eauto.
  - cbn. repeat apply conj; reflexivity.
Qed.

Lemma del_state_frees_only_the_state_witness :
  exists w',
    wl_backend_del_state (Some 1%positive) example_registered = Some (tt, w')
    /\ entries w' = entries example_registered
    /\ @wl_backend_on_fd_event linux_bits 7 1 (Some 1%positive) w' = None.
Proof.
  destruct (@del_state_frees_only_the_state linux_bits) as [Hdel _].
  destruct (Hdel example_registered 1%positive example_state)
    as (w' & Hrun & _ & Hent & _ & _ & _ & Hrelay); [reflexivity|].
  exists w'. split; [exact Hrun|]. split; [exact Hent|].
  apply (Hrelay 1%positive example_entry 7 1 0); reflexivity.
Defined.

Lemma new_state_del_state_witness :
  exists p w1 w2,
    wl_backend_new_state (Some 1%positive) example_world = Some (Some p, w1)
    /\ wl_backend_del_state (Some p) w1 = Some (tt, w2)
    /\ states w2 = states example_world.
Proof.
  destruct (new_state_del_state example_world (Some 1%positive)) as [Hok _].
  destruct (Hok eq_refl) as (p & w1 & w2 & Hnew & _ & Hdel & Hst).
  exists p, w1, w2. auto.
Defined.

Lemma add_fd_then_ready_witness :
  exists w1 w2,
    @wl_backend_add_fd linux_bits (Some 1%positive) (Some 7%positive)
      example_world = Some (0, w1)
    /\ @wl_event_source_fd_dispatch linux_bits (Some 1%positive) 1 w1
       = Some (0, w2)
    /\ aml_log w2 = [call_aml_emit 1 7 1; call_aml_dispatch 1].
Proof.
  destruct (@add_fd_then_ready linux_bits example_world 1%positive 7%positive
              5%positive 1%positive 1%positive example_state example_handler
              7 1 1)
    as (w1 & w2 & Hadd & Hdisp & Hlog & _); try reflexivity.
  exists w1, w2. rewrite Hlog. repeat apply conj; try assumption. reflexivity.
Defined.

Lemma add_signal_then_delivered_witness :
  exists w1 w2,
    wl_backend_add_signal (Some 1%positive) (Some 8%positive) example_world
    = Some (0, w1)
    /\ wl_event_source_signal_dispatch (Some 1%positive) w1 = Some (0, w2)
    /\ aml_log w2 = [call_aml_emit 1 8 0; call_aml_dispatch 1].
Proof.
  destruct (add_signal_then_delivered example_world 1%positive 8%positive
              5%positive 1%positive 1%positive example_state example_signal 15)
    as (w1 & w2 & Hadd & Hdisp & Hlog & _); try reflexivity.
  exists w1, w2. rewrite Hlog. repeat apply conj; try assumption. reflexivity.
Defined.

(** ** Entries and registrations stay paired *)

Lemma keeps_view_ret {A B : Type} (view : world -> B) (a : A) :
  keeps_view view (mret a : M A).
Proof. intros w a' w' Hrun. inversion Hrun. reflexivity. Qed.

Lemma keeps_view_bind {A B C : Type} (view : world -> C) (m : M A)
    (f : A -> M B) :
  keeps_view view m -> (forall a, keeps_view view (f a)) ->
  keeps_view view (m ≫= f).
Proof.
  intros Hm Hf w b w' Hrun. unfold mbind, M_bind in Hrun.
  destruct (m w) as [[a w1]|] eqn:Em; [|discriminate].
  rewrite (Hf a w1 b w' Hrun). apply (Hm w a w1 Em).
Qed.

Lemma keeps_view_fault {A B : Type} (view : world -> B) :
  keeps_view view (fault : M A).
Proof. intros w a w' Hrun. discriminate. Qed.

Lemma keeps_view_gets {A B : Type} (view : world -> B) (f : world -> A) :
  keeps_view view (gets f).
Proof. intros w a w' Hrun. inversion Hrun. reflexivity. Qed.

Lemma keeps_view_modify {B : Type} (view : world -> B) (f : world -> world) :
  (forall w, view (f w) = view w) -> keeps_view view (modify f).
Proof. intros Hf w a w' Hrun. inversion Hrun. apply Hf. Qed.

Lemma keeps_view_deref {A B : Type} (view : world -> B)
    (heap : world -> gmap ptr A) (p : option ptr) :
  keeps_view view (deref heap p).
Proof.
  intros w a w' Hrun. unfold deref in Hrun.
  destruct p as [q|]; [|discriminate].
  destruct (heap w !! q); [|discriminate]. inversion Hrun. reflexivity.
Qed.

Lemma keeps_registry_pop_calloc_script : keeps_view registry pop_calloc_script.
Proof. intros w a w' Hrun. inversion Hrun. reflexivity. Qed.

Create HintDb keeps_registry.

#[local] Hint Resolve keeps_view_ret keeps_view_fault keeps_view_gets
  keeps_view_deref keeps_registry_pop_calloc_script : keeps_registry.

Ltac keeps_registry :=
  repeat (intros;
    lazymatch goal with
    | |- keeps_view _ (_ ≫= _) => apply keeps_view_bind
    | |- keeps_view _ (modify _) =>
        apply keeps_view_modify; intros; reflexivity
    | |- keeps_view _ (match ?x with _ => _ end) => destruct x
    | |- keeps_view _ _ => solve [auto with keeps_registry]
    end).

Lemma keeps_registry_log_aml (c : aml_call) : keeps_view registry (log_aml c).
Proof. unfold log_aml. keeps_registry. Qed.

Lemma keeps_registry_calloc_state :
  keeps_view registry calloc_wl_backend_state.
Proof. unfold calloc_wl_backend_state. keeps_registry. Qed.

Lemma keeps_registry_free_state (p : option ptr) :
  keeps_view registry (free_wl_backend_state p).
Proof. unfold free_wl_backend_state. keeps_registry. Qed.

Lemma keeps_registry_assign_state (p : option ptr)
    (f : wl_backend_state -> wl_backend_state) :
  keeps_view registry (assign_state p f).
Proof. unfold assign_state. keeps_registry. Qed.

#[local] Hint Resolve keeps_registry_log_aml keeps_registry_calloc_state
  keeps_registry_free_state keeps_registry_assign_state : keeps_registry.

Lemma keeps_registry_set_event_mask (h : option ptr) (mask : Z) :
  keeps_view registry (aml_set_event_mask h mask).
Proof. unfold aml_set_event_mask. keeps_registry. Qed.

Lemma keeps_registry_emit (self obj : option ptr) (revents : Z) :
  keeps_view registry (aml_emit self obj revents).
Proof. unfold aml_emit. keeps_registry. Qed.

Lemma keeps_registry_dispatch (self : option ptr) :
  keeps_view registry (aml_dispatch self).
Proof. unfold aml_dispatch. keeps_registry. Qed.

Lemma keeps_registry_new_state (aml : option ptr) :
  keeps_view registry (wl_backend_new_state aml).
Proof. unfold wl_backend_new_state. keeps_registry. Qed.

#[local] Hint Resolve keeps_registry_set_event_mask keeps_registry_emit
  keeps_registry_dispatch keeps_registry_new_state : keeps_registry.

Lemma keeps_registry_on_signal (signo : Z) (userdata : option ptr) :
  keeps_view registry (wl_backend_on_signal signo userdata).
Proof. unfold wl_backend_on_signal. keeps_registry. Qed.

#[local] Hint Resolve keeps_registry_on_signal : keeps_registry.

Lemma keeps_registry_step {A : Type} (m : M A) (w w' : world) (a : A) :
  keeps_view registry m -> m w = Some (a, w') -> registry_step w w'.
Proof.
  intros Hm Hrun. specialize (Hm w a w' Hrun). inversion Hm.
  apply step_none; assumption.
Qed.

(** One step keeps the pairing. *)
Lemma registry_step_matches (w w' : world) :
  registry_step w w' -> entries_match_sources w -> entries_match_sources w'.
Proof.
  intros Hstep [Hsrc Hent].
  destruct Hstep as [He Hs | d s e reg Hd Hsn Hes Hrd He Hs
                     | d s e reg Hd Hes Hreg He Hs
                     | s reg reg' Hreg Hdata He Hs];
    split; rewrite ?He, ?Hs.
  - exact Hsrc.
  - exact Hent.
  - intros s0 reg0 H0. destruct (decide (s = s0)) as [<-|Hne].
    + rewrite lookup_insert_eq in H0. inversion H0. subst reg0.
      exists d, e. rewrite lookup_insert_eq. auto.
    + rewrite lookup_insert_ne in H0 by exact Hne.
      destruct (Hsrc s0 reg0 H0) as (d0 & e0 & Hd0 & He0 & Hs0).
      exists d0, e0. rewrite lookup_insert_ne by congruence. auto.
  - intros d0 e0 H0. destruct (decide (d = d0)) as [<-|Hne].
    + rewrite lookup_insert_eq in H0. inversion H0. subst e0.
      exists s, reg. rewrite lookup_insert_eq. auto.
    + rewrite lookup_insert_ne in H0 by exact Hne.
      destruct (Hent d0 e0 H0) as (s0 & reg0 & Hs0 & Hr0 & Hd0).
      exists s0, reg0. rewrite lookup_insert_ne by congruence. auto.
  - intros s0 reg0 H0. destruct (decide (s = s0)) as [<-|Hne].
    + rewrite lookup_delete_eq in H0. discriminate.
    + rewrite lookup_delete_ne in H0 by exact Hne.
      destruct (Hsrc s0 reg0 H0) as (d0 & e0 & Hd0 & He0 & Hs0).
      exists d0, e0. rewrite lookup_delete_ne by congruence. auto.
  - intros d0 e0 H0. destruct (decide (d = d0)) as [<-|Hne].
    + rewrite lookup_delete_eq in H0. discriminate.
    + rewrite lookup_delete_ne in H0 by exact Hne.
      destruct (Hent d0 e0 H0) as (s0 & reg0 & Hs0 & Hr0 & Hd0).
      exists s0, reg0. rewrite lookup_delete_ne; [auto|].
      intros <-. rewrite Hreg in Hr0. inversion Hr0. subst reg0.
      destruct (Hent d e Hd) as (s1 & reg1 & Hs1 & Hr1 & Hd1).
      rewrite Hes in Hs1. inversion Hs1. subst s1.
      rewrite Hreg in Hr1. inversion Hr1. subst reg1. congruence.
  - intros s0 reg0 H0. destruct (decide (s = s0)) as [<-|Hne].
    + rewrite lookup_insert_eq in H0. inversion H0. subst reg0.
      rewrite Hdata. apply (Hsrc s reg Hreg).
    + rewrite lookup_insert_ne in H0 by exact Hne. apply (Hsrc s0 reg0 H0).
  - intros d0 e0 H0.
    destruct (Hent d0 e0 H0) as (s0 & reg0 & Hs0 & Hr0 & Hd0).
    destruct (decide (s = s0)) as [<-|Hne].
    + exists s, reg'. rewrite lookup_insert_eq.
      rewrite Hreg in Hr0. inversion Hr0. subst reg0.
      rewrite Hdata. auto.
    + exists s0, reg0. rewrite lookup_insert_ne by exact Hne. auto.
Qed.

Lemma bind_ret_inv {A : Type} (m : M A) (w w' : world) (u : unit) :
  (m;; mret tt) w = Some (u, w') -> exists a, m w = Some (a, w').
Proof.
  unfold mbind, M_bind. destruct (m w) as [[a w1]|]; [|discriminate].
  intros Hrun. inversion Hrun. exists a. reflexivity.
Qed.

(** Removing the registration of an entry and freeing the entry. *)
Lemma remove_and_free_step (w w' : world) (data : option ptr) (r : Z) :
  ('(_, d) ← deref entries data;
   wl_event_source_remove (esd_src d);;
   free_event_source_data data;;
   mret 0) w = Some (r, w') ->
  registry_step w w'.
Proof.
  destruct data as [d|]; [|discriminate].
  destruct (entries w !! d) as [e|] eqn:Hd;
    [|rewrite bind_fault; [discriminate|];
      unfold deref; rewrite Hd; reflexivity].
  mstep ltac:(apply run_deref).
  destruct (esd_src e) as [s|] eqn:Hs; [|discriminate].
  destruct (wl_sources w !! s) as [reg|] eqn:Hreg;
    [|rewrite bind_fault; [discriminate|];
      unfold wl_event_source_remove; apply bind_fault;
      unfold deref; rewrite Hreg; reflexivity].
  mstep ltac:(eapply run_wl_event_source_remove).
  mstep ltac:(eapply run_free_event_source_data).
  intros Hrun. inversion Hrun.
  eapply (step_remove _ _ d s e reg); auto.
Qed.

Lemma del_fd_step (w w' : world) (state handler : option ptr) (r : Z) :
  wl_backend_del_fd state handler w = Some (r, w') -> registry_step w w'.
Proof.
  unfold wl_backend_del_fd.
  destruct handler as [h|]; [|discriminate].
  destruct (aml_objs w !! h) as [o|] eqn:Ho;
    [|rewrite bind_fault; [discriminate|];
      unfold aml_get_backend_data; apply bind_fault;
      unfold deref; rewrite Ho; reflexivity].
  mstep ltac:(eapply run_aml_get_backend_data).
  apply remove_and_free_step.
Qed.

Lemma del_signal_step (w w' : world) (state sig : option ptr) (r : Z) :
  wl_backend_del_signal state sig w = Some (r, w') -> registry_step w w'.
Proof.
  unfold wl_backend_del_signal.
  destruct sig as [h|]; [|discriminate].
  destruct (aml_objs w !! h) as [o|] eqn:Ho;
    [|rewrite bind_fault; [discriminate|];
      unfold aml_get_backend_data; apply bind_fault;
      unfold deref; rewrite Ho; reflexivity].
  mstep ltac:(eapply run_aml_get_backend_data).
  apply remove_and_free_step.
Qed.

Lemma add_signal_step (w w' : world) (state sig : option ptr) (r : Z) :
  wl_backend_add_signal state sig w = Some (r, w') -> registry_step w w'.
Proof.
  unfold wl_backend_add_signal.
  destruct sig as [g|]; [|discriminate].
  destruct (aml_objs w !! g) as [o|] eqn:Ho;
    [|rewrite bind_fault; [discriminate|];
      unfold aml_get_signo; apply bind_fault; unfold deref; rewrite Ho;
      reflexivity].
  destruct (obj_kind o) as [fd mask|signo] eqn:Hk;
    [rewrite bind_fault; [discriminate|];
     unfold aml_get_signo; erewrite bind_run by (apply run_deref; exact Ho);
     cbn beta iota; rewrite Hk; reflexivity|].
  mstep ltac:(eapply run_aml_get_signo).
  destruct (next_ok (calloc_script w)) eqn:Hc;
    [|mstep ltac:(apply run_event_source_data_new_fail);
      intros Hrun; inversion Hrun; apply step_none; reflexivity].
  mstep ltac:(apply run_event_source_data_new_ok).
  destruct state as [s|]; [|discriminate].
  destruct (states w !! s) as [st|] eqn:Hst;
    [|rewrite bind_fault; [discriminate|];
      unfold deref; cbn; rewrite Hst; reflexivity].
  mstep ltac:(apply run_deref).
  destruct (st_loop st) as [l|] eqn:Hl; [|discriminate].
  destruct (next_ok (wl_script w)) eqn:Hh.
  - mstep ltac:(apply run_wl_event_loop_add_signal_ok).
    mstep ltac:(eapply run_assign_data; cbn; apply lookup_insert_eq).
    mstep ltac:(eapply run_aml_set_backend_data).
    intros Hrun. inversion Hrun. subst r w'.
    apply (step_add _ _ (fresh (dom (entries w))) (fresh (dom (wl_sources w)))
             {| esd_aml_obj := Some g; esd_state := Some s;
                esd_src := Some (fresh (dom (wl_sources w))) |}
             (signal_registration l signo fn_wl_backend_on_signal
                (Some (fresh (dom (entries w))))));
      cbn; rewrite ?insert_insert_eq;
      try apply fresh_lookup_None; reflexivity.
  - mstep ltac:(apply run_wl_event_loop_add_signal_fail).
    mstep ltac:(eapply run_free_event_source_data; cbn;
                apply lookup_insert_eq).
    intros Hrun. inversion Hrun. apply step_none; cbn.
    + apply delete_insert_id. apply fresh_lookup_None.
    + reflexivity.
Qed.

Section RegistryFacts.
Context `{EventBits}.

Lemma add_fd_step (w w' : world) (state handler : option ptr) (r : Z) :
  wl_backend_add_fd state handler w = Some (r, w') -> registry_step w w'.
Proof.
  unfold wl_backend_add_fd.
  destruct handler as [h|]; [|discriminate].
  destruct (aml_objs w !! h) as [o|] eqn:Ho;
    [|rewrite bind_fault; [discriminate|];
      unfold aml_get_fd; apply bind_fault; unfold deref; rewrite Ho;
      reflexivity].
  destruct (obj_kind o) as [fd mask|signo] eqn:Hk;
    [|rewrite bind_fault; [discriminate|];
      unfold aml_get_fd; erewrite bind_run by (apply run_deref; exact Ho);
      cbn beta iota; rewrite Hk; reflexivity].
  mstep ltac:(eapply run_aml_get_fd).
  mstep ltac:(eapply run_aml_get_event_mask).
  destruct (next_ok (calloc_script w)) eqn:Hc;
    [|mstep ltac:(apply run_event_source_data_new_fail);
      intros Hrun; inversion Hrun; apply step_none; reflexivity].
  mstep ltac:(apply run_event_source_data_new_ok).
  destruct state as [s|]; [|discriminate].
  destruct (states w !! s) as [st|] eqn:Hst;
    [|rewrite bind_fault; [discriminate|];
      unfold deref; cbn; rewrite Hst; reflexivity].
  mstep ltac:(apply run_deref).
  destruct (st_loop st) as [l|] eqn:Hl; [|discriminate].
  destruct (next_ok (wl_script w)) eqn:Hh.
  - mstep ltac:(apply run_wl_event_loop_add_fd_ok).
    mstep ltac:(eapply run_assign_data; cbn; apply lookup_insert_eq).
    mstep ltac:(eapply run_aml_set_backend_data).
    intros Hrun. inversion Hrun. subst r w'.
    apply (step_add _ _ (fresh (dom (entries w))) (fresh (dom (wl_sources w)))
             {| esd_aml_obj := Some h; esd_state := Some s;
                esd_src := Some (fresh (dom (wl_sources w))) |}
             (fd_registration l fd (to_host mask) fn_wl_backend_on_fd_event
                (Some (fresh (dom (entries w))))));
      cbn; rewrite ?insert_insert_eq;
      try apply fresh_lookup_None; reflexivity.
  - mstep ltac:(apply run_wl_event_loop_add_fd_fail).
    mstep ltac:(eapply run_free_event_source_data; cbn;
                apply lookup_insert_eq).
    intros Hrun. inversion Hrun. apply step_none; cbn.
    + apply delete_insert_id. apply fresh_lookup_None.
    + reflexivity.
Qed.

Lemma mod_fd_step (w w' : world) (state handler : option ptr) (r : Z) :
  wl_backend_mod_fd state handler w = Some (r, w') -> registry_step w w'.
Proof.
  unfold wl_backend_mod_fd.
  destruct handler as [h|]; [|discriminate].
  destruct (aml_objs w !! h) as [o|] eqn:Ho;
    [|rewrite bind_fault; [discriminate|];
      unfold aml_get_backend_data; apply bind_fault;
      unfold deref; rewrite Ho; reflexivity].
  mstep ltac:(eapply run_aml_get_backend_data).
  destruct (obj_kind o) as [fd mask|signo] eqn:Hk;
    [|rewrite bind_fault; [discriminate|];
      unfold aml_get_event_mask;
      erewrite bind_run by (apply run_deref; exact Ho);
      cbn beta iota; rewrite Hk; reflexivity].
  mstep ltac:(eapply run_aml_get_event_mask).
  destruct (backend_data o) as [d|]; [|discriminate].
  destruct (entries w !! d) as [e|] eqn:Hd;
    [|rewrite bind_fault; [discriminate|];
      unfold deref; rewrite Hd; reflexivity].
  mstep ltac:(apply run_deref).
  destruct (esd_src e) as [s|] eqn:Hs; [|discriminate].
  destruct (wl_sources w !! s) as [reg|] eqn:Hreg;
    [|rewrite bind_fault; [discriminate|];
      unfold wl_event_source_fd_update; apply bind_fault;
      unfold deref; rewrite Hreg; reflexivity].
  destruct (source_kind reg) as [rfd old|signo] eqn:Hrk;
    [|rewrite bind_fault; [discriminate|];
      unfold wl_event_source_fd_update;
      erewrite bind_run by (apply run_deref; exact Hreg);
      cbn beta iota; rewrite Hrk; reflexivity].
  unfold mbind at 1, M_bind at 1.
  erewrite run_wl_event_source_fd_update by eauto.
  destruct (next_ok (wl_script w)); intros Hrun; inversion Hrun.
  - apply (step_update _ _ s reg
             (fd_registration (source_loop reg) rfd (to_host mask)
                (source_func reg) (source_data reg)));
      [exact Hreg | reflexivity | reflexivity | reflexivity].
  - apply step_none; reflexivity.
Qed.

Lemma keeps_registry_on_fd_event (fd mask : Z) (userdata : option ptr) :
  keeps_view registry (wl_backend_on_fd_event fd mask userdata).
Proof. unfold wl_backend_on_fd_event. keeps_registry. Qed.

Lemma run_op_step (o : bridge_op) (w w' : world) (u : unit) :
  run_op o w = Some (u, w') -> registry_step w w'.
Proof.
  destruct o; cbn [run_op]; intros Hrun;
    try (apply bind_ret_inv in Hrun; destruct Hrun as [a Hrun]).
  - eapply keeps_registry_step; [apply keeps_registry_new_state | exact Hrun].
  - eapply keeps_registry_step; [|exact Hrun].
    unfold wl_backend_del_state. auto with keeps_registry.
  - eapply keeps_registry_step; [|exact Hrun].
    unfold wl_backend_exit. auto with keeps_registry.
  - eapply add_fd_step; eauto.
  - eapply mod_fd_step; eauto.
  - eapply del_fd_step; eauto.
  - eapply add_signal_step; eauto.
  - eapply del_signal_step; eauto.
  - eapply keeps_registry_step; [|exact Hrun]. auto with keeps_registry.
  - eapply keeps_registry_step; [|exact Hrun].
    unfold wl_event_source_fd_dispatch.
    pose proof keeps_registry_on_fd_event. keeps_registry.
  - eapply keeps_registry_step; [|exact Hrun].
    unfold wl_event_source_signal_dispatch. keeps_registry.
Qed.

(** X10: entries and host registrations stay paired. In a world where every
    registration has a live entry as its context and every live entry holds
    the handle of a registration whose context it is, every sequence of
    operations of the bridge, with any arguments and any outcomes of the
    allocations and of the host calls, ends in such a world when it ends
    without undefined behaviour. No operation frees an entry whose
    registration stays with the host loop, and none leaves an entry without
    its registration. A world without entries and registrations is paired. *)
Theorem entries_stay_paired :
  (forall w : world,
      entries w = ∅ -> wl_sources w = ∅ -> entries_match_sources w)
  /\ (forall (ops : list bridge_op) (w w' : world) (u : unit),
        entries_match_sources w -> run_ops ops w = Some (u, w') ->
        entries_match_sources w').
Proof.
  split.
  - intros w He Hs. split.
    + intros s reg Hreg. rewrite Hs, lookup_empty in Hreg. discriminate.
    + intros d e Hd. rewrite He, lookup_empty in Hd. discriminate.
  - induction ops as [|o ops IH]; intros w w' u Hw Hrun.
    + inversion Hrun. subst. exact Hw.
    + cbn [run_ops] in Hrun. unfold mbind, M_bind in Hrun.
      destruct (run_op o w) as [[u1 w1]|] eqn:Hop; [|discriminate].
      apply (IH w1 w' u); [|exact Hrun].
      eapply registry_step_matches; [|exact Hw].
      eapply run_op_step. exact Hop.
Qed.

(** X11: in a paired world [wl_backend_del_fd] and [wl_backend_del_signal]
    cannot go wrong on a watcher whose backend-private slot holds a live
    entry: they return 0, and the entry and the registration it holds are
    gone afterwards. *)
Theorem del_succeeds_when_paired (w : world) (state : option ptr)
    (h d : ptr) (o : aml_object) (e : event_source_data) :
  entries_match_sources w ->
  aml_objs w !! h = Some o -> backend_data o = Some d ->
  entries w !! d = Some e ->
  exists (s : ptr) (w1 w2 : world),
    esd_src e = Some s
    /\ wl_backend_del_fd state (Some h) w = Some (0, w1)
    /\ wl_backend_del_signal state (Some h) w = Some (0, w2)
    /\ entries w1 = delete d (entries w)
    /\ wl_sources w1 = delete s (wl_sources w)
    /\ entries w2 = delete d (entries w)
    /\ wl_sources w2 = delete s (wl_sources w)
    /\ entries_match_sources w1.
Proof.
  intros Hw Ho Hb Hd.
  destruct Hw as [Hsrc Hent].
  destruct (Hent d e Hd) as (s & reg & Hs & Hreg & Hdata).
  exists s. eexists. eexists.
  split; [exact Hs|].
  split; [eapply run_del_fd; eauto|].
  split; [eapply run_del_signal; eauto|].
  cbn. do 4 (split; [reflexivity|]).
  eapply registry_step_matches; [|split; [exact Hsrc | exact Hent]].
  eapply (step_remove _ _ d s e reg); cbn; auto.
Qed.
End RegistryFacts.

Lemma example_registered_paired : entries_match_sources example_registered.
Proof.
  split.
  - intros s reg Hreg.
    destruct (decide (s = 1%positive)) as [->|Hne].
    + inversion Hreg. exists 1%positive, example_entry. auto.
    + cbn in Hreg. rewrite lookup_singleton_ne in Hreg by auto. discriminate.
  - intros d e Hd.
    destruct (decide (d = 1%positive)) as [->|Hne].
    + inversion Hd. exists 1%positive, example_registration. auto.
    + cbn in Hd. rewrite lookup_singleton_ne in Hd by auto. discriminate.
Defined.

Lemma entries_stay_paired_witness :
  match @run_ops linux_bits
          [op_add_fd (Some 1%positive) (Some 7%positive);
           op_fd_ready (Some 1%positive) 1;
           op_add_signal (Some 1%positive) (Some 8%positive);
           op_del_fd (Some 1%positive) (Some 7%positive)] example_world
  with
  | Some (_, w') => entries_match_sources w' /\ size (entries w') = 1%nat
  | None => False
  end.
Proof.
  destruct (@entries_stay_paired linux_bits) as [Hempty Hkeep].
  destruct (@run_ops linux_bits _ example_world) as [[u w']|] eqn:Hrun.
  - split.
    + eapply Hkeep; [|exact Hrun]. apply Hempty; reflexivity.
    + vm_compute in Hrun. inversion Hrun. reflexivity.
  - vm_compute in Hrun. discriminate.
Defined.

Lemma del_succeeds_when_paired_witness :
  exists w1,
    wl_backend_del_fd (Some 1%positive) (Some 7%positive) example_registered
    = Some (0, w1)
    /\ entries_match_sources w1.
Proof.
  destruct (del_succeeds_when_paired example_registered
              (Some 1%positive) 7%positive 1%positive
              {| obj_kind := aml_handler 7 1; backend_data := Some 1%positive |}
              example_entry example_registered_paired)
    as (s & w1 & w2 & _ & Hdel & _ & _ & _ & _ & _ & Hpaired);
    try reflexivity.
  exists w1. auto.
Defined.

(** ** More on the mask translation *)

(** The two statements of a translation, as the union of what each adds. *)
Lemma translate_union (x b1 c1 b2 c2 : Z) :
  or_if_set x b2 (or_if_set x b1 0 c1) c2
  = Z.lor (if Z.land x (uint32 b1) =? 0 then 0 else uint32 c1)
          (if Z.land x (uint32 b2) =? 0 then 0 else uint32 c2).
Proof.
  unfold or_if_set.
  destruct (Z.land x (uint32 b1) =? 0), (Z.land x (uint32 b2) =? 0);
    rewrite ?Z.lor_0_l, ?Z.lor_0_r, ?uint32_lor, ?uint32_idem; reflexivity.
Qed.

Lemma land_lor_eqb_0 (a b c : Z) :
  (Z.land (Z.lor a b) c =? 0) = (Z.land a c =? 0) && (Z.land b c =? 0).
Proof.
  rewrite Z.land_lor_distr_l.
  destruct (Z.eqb_spec (Z.land a c) 0) as [Ea|Ea];
    destruct (Z.eqb_spec (Z.land b c) 0) as [Eb|Eb]; cbn;
    apply Z.eqb_neq || apply Z.eqb_eq;
    rewrite ?Z.lor_eq_0_iff; tauto.
Qed.

Lemma translate_lor (a b b1 c1 b2 c2 : Z) :
  or_if_set (Z.lor a b) b2 (or_if_set (Z.lor a b) b1 0 c1) c2
  = Z.lor (or_if_set a b2 (or_if_set a b1 0 c1) c2)
          (or_if_set b b2 (or_if_set b b1 0 c1) c2).
Proof.
  rewrite !translate_union, !land_lor_eqb_0.
  apply Z.bits_inj'. intros n _.
  destruct (Z.land a (uint32 b1) =? 0), (Z.land b (uint32 b1) =? 0),
    (Z.land a (uint32 b2) =? 0), (Z.land b (uint32 b2) =? 0); cbn;
    rewrite ?Z.lor_spec, ?Z.bits_0;
    destruct (Z.testbit (uint32 c1) n), (Z.testbit (uint32 c2) n);
    reflexivity.
Qed.

Lemma uint32_range (z : Z) : 0 <= uint32 z < 2 ^ 32.
Proof. unfold uint32. apply Z.mod_pos_bound. lia. Qed.

Lemma translate_range (x b1 c1 b2 c2 : Z) :
  0 <= or_if_set x b2 (or_if_set x b1 0 c1) c2 < 2 ^ 32.
Proof.
  unfold or_if_set.
  destruct (Z.land x (uint32 b1) =? 0), (Z.land x (uint32 b2) =? 0);
    try apply uint32_range; lia.
Qed.

Section MoreMaskFacts.
Context `{EventBits}.

(** X12: both translations work bit by bit. The translation of a union of
    two masks is the union of their translations, the empty mask is
    translated to the empty mask, and every translated mask fits in 32 bits,
    for all inputs and all values of the four constants. *)
Theorem translation_distributes_over_union (a b : Z) :
  to_host (Z.lor a b) = Z.lor (to_host a) (to_host b)
  /\ to_abstract (Z.lor a b) = Z.lor (to_abstract a) (to_abstract b)
  /\ to_host 0 = 0 /\ to_abstract 0 = 0
  /\ 0 <= to_host a < 2 ^ 32 /\ 0 <= to_abstract a < 2 ^ 32.
Proof.
  unfold to_host, to_abstract, wl_backend_events_from_poll_events,
    wl_backend_events_to_poll_events. cbv zeta.
  split; [apply translate_lor|]. split; [apply translate_lor|].
  split; [reflexivity|]. split; [reflexivity|].
  split; apply translate_range.
Qed.

Lemma to_abstract_no_defined_bit (m : Z) :
  Z.land m (Z.lor WL_EVENT_READABLE WL_EVENT_WRITABLE) = 0 ->
  to_abstract m = 0.
Proof.
  intros Hm. unfold to_abstract, wl_backend_events_to_poll_events, or_if_set.
  rewrite <- (land_restrict_l m WL_EVENT_READABLE WL_EVENT_WRITABLE).
  rewrite <- (land_restrict_r m WL_EVENT_READABLE WL_EVENT_WRITABLE).
  rewrite Hm. reflexivity.
Qed.

(** X13: the fd relay does not test the translated mask. When the host loop
    reports only bits other than its readable and writable bits (an error or
    a hang-up), the relay still makes its emission on the entry's watcher,
    with the mask 0, and still runs one dispatch pass. *)
Theorem fd_relay_emits_empty_mask (w : world) (fd m : Z)
    (data obj s a s' : ptr) (d : event_source_data) (st : wl_backend_state)
    (o : aml_object) :
  Z.land m (Z.lor WL_EVENT_READABLE WL_EVENT_WRITABLE) = 0 ->
  entries w !! data = Some d ->
  esd_aml_obj d = Some obj -> esd_state d = Some s ->
  states w !! s = Some st -> st_aml st = Some a ->
  amls w !! a = Some s' -> aml_objs w !! obj = Some o ->
  exists w',
    wl_backend_on_fd_event fd m (Some data) w = Some (0, w')
    /\ aml_log w' = aml_log w ++ [call_aml_emit a obj 0; call_aml_dispatch a].
Proof.
  intros Hm Hd Hobj Hs Hst Ha Haml Ho. eexists. split.
  - unfold wl_backend_on_fd_event. cbv zeta. eapply run_relay; eauto.
  - cbn. fold (to_abstract m). rewrite (to_abstract_no_defined_bit m Hm).
    reflexivity.
Qed.
End MoreMaskFacts.

Lemma fd_relay_emits_empty_mask_witness :
  exists w',
    @wl_backend_on_fd_event linux_bits 7 12 (Some 1%positive) example_registered
    = Some (0, w')
    /\ aml_log w' = [call_aml_emit 1 7 0; call_aml_dispatch 1].
Proof.
  destruct (@fd_relay_emits_empty_mask linux_bits example_registered 7 12
              1%positive 7%positive 1%positive 1%positive 1%positive
              example_entry example_state
              {| obj_kind := aml_handler 7 1; backend_data := Some 1%positive |})
    as (w' & Hrun & Hlog); try reflexivity.
  exists w'. split; [exact Hrun|]. rewrite Hlog. reflexivity.
Defined.

(** * Properties of the demo client *)

(** ** The list of outputs *)

Lemma output_seen_elem (l : list fs_output) (output : ptr) :
  output_seen l output = true <-> output ∈ fs_output_output <$> l.
Proof.
  induction l as [|fsout l IH]; cbn.
  - split; [discriminate | intros Hin; inversion Hin].
  - rewrite elem_of_cons.
    destruct (Pos.eqb_spec (fs_output_output fsout) output) as [E|E].
    + split; auto.
    + rewrite IH. split; [auto | intros [E'|Hin]; congruence].
Qed.

Lemma output_handler_list (zalloc_ok : bool) (output : ptr) (data : fullscreen) :
  fs_output_list (output_handler zalloc_ok output data).1
  = if output_seen (fs_output_list data) output then fs_output_list data
    else if zalloc_ok
         then {| fs_output_output := output |} :: fs_output_list data
         else fs_output_list data.
Proof.
  unfold output_handler.
  destruct (output_seen (fs_output_list data) output); [reflexivity|].
  destruct zalloc_ok; reflexivity.
Qed.

(** X14: the output list never holds an output twice and never loses one.
    After any sequence of calls of [output_handler], whatever the outcomes
    of the allocations, a list without duplicates is still without
    duplicates, the old list is the tail end of the new one, and the other
    fields of the structure are as before. *)
Theorem output_list_no_duplicates (calls : list (bool * ptr))
    (data : fullscreen) :
  NoDup (fs_output_output <$> fs_output_list data) ->
  let data' := output_handler_calls calls data in
  NoDup (fs_output_output <$> fs_output_list data')
  /\ fs_output_list data `suffix_of` fs_output_list data'
  /\ fs_filename data' = fs_filename data
  /\ fs_width data' = fs_width data
  /\ fs_height data' = fs_height data
  /\ fs_current_output data' = fs_current_output data.
Proof.
  revert data. induction calls as [|[ok output] calls IH]; intros data Hnd.
  - cbn. repeat apply conj; auto.
  - cbn [output_handler_calls].
    set (data1 := (output_handler ok output data).1).
    assert (H1 : NoDup (fs_output_output <$> fs_output_list data1)
                 /\ fs_output_list data `suffix_of` fs_output_list data1
                 /\ fs_filename data1 = fs_filename data
                 /\ fs_width data1 = fs_width data
                 /\ fs_height data1 = fs_height data
                 /\ fs_current_output data1 = fs_current_output data).
    { subst data1. unfold output_handler.
      destruct (output_seen (fs_output_list data) output) eqn:Hseen;
        [cbn; repeat apply conj; auto|].
      destruct ok; cbn; repeat apply conj; auto.
      - apply NoDup_cons. split; [|exact Hnd].
        intros Hin. apply output_seen_elem in Hin. congruence.
      - apply suffix_cons_r. reflexivity. }
    destruct H1 as (Hnd1 & Hsuf & Hf & Hw & Hh & Hc).
    destruct (IH data1 Hnd1) as (Hnd' & Hsuf' & Hf' & Hw' & Hh' & Hc').
    repeat apply conj;
      [exact Hnd' | etransitivity; eassumption | congruence ..].
Qed.

Lemma output_list_no_duplicates_witness :
  let data := {| fs_filename := "a.png"; fs_width := 200; fs_height := 100;
                 fs_output_list := []; fs_current_output := None |} in
  let data' := output_handler_calls
                 [(true, 3%positive); (true, 4%positive); (false, 5%positive);
                  (true, 3%positive)] data in
  NoDup (fs_output_output <$> fs_output_list data')
  /\ fs_output_output <$> fs_output_list data' = [4%positive; 3%positive].
Proof.
  intros data data'.
  destruct (output_list_no_duplicates
              [(true, 3%positive); (true, 4%positive); (false, 5%positive);
               (true, 3%positive)] data) as [Hnd _].
  - apply NoDup_nil_2.
  - split; [exact Hnd | reflexivity].
Defined.

(** X15: [output_handler] adds an output at most once. When the allocation
    succeeds the output is in the list afterwards, at its head when it is
    new; a call for an output that is in the list changes nothing and writes
    nothing, also when its allocation would fail; and a failed allocation
    for a new output leaves the structure as it is and writes the
    out-of-memory message. *)
Theorem output_handler_adds_once (output : ptr) (data : fullscreen) :
  (output ∈ fs_output_output
     <$> fs_output_list (output_handler true output data).1)
  /\ (output_seen (fs_output_list data) output = false ->
      fs_output_list (output_handler true output data).1
      = {| fs_output_output := output |} :: fs_output_list data)
  /\ (forall zalloc_ok,
        output_handler zalloc_ok output (output_handler true output data).1
        = ((output_handler true output data).1, ""))
  /\ (forall zalloc_ok,
        output_seen (fs_output_list data) output = true ->
        output_handler zalloc_ok output data = (data, ""))
  /\ (output_seen (fs_output_list data) output = false ->
      output_handler false output data
      = (data, "out of memory in output_handler" +:+ newline)).
Proof.
  assert (Hin : output_seen (fs_output_list (output_handler true output data).1)
                  output = true).
  { rewrite output_handler_list.
    destruct (output_seen (fs_output_list data) output) eqn:Hseen;
      [exact Hseen|].
    cbn. rewrite Pos.eqb_refl. reflexivity. }
  repeat apply conj.
  - apply output_seen_elem. exact Hin.
  - intros Hseen. rewrite output_handler_list, Hseen. reflexivity.
  - intros ok. unfold output_handler at 1. rewrite Hin. reflexivity.
  - intros ok Hseen. unfold output_handler. rewrite Hseen. reflexivity.
  - intros Hseen. unfold output_handler. rewrite Hseen. reflexivity.
Qed.

Lemma output_handler_adds_once_witness :
  output_handler false 3%positive
    {| fs_filename := "a.png"; fs_width := 200; fs_height := 100;
       fs_output_list := [{| fs_output_output := 3%positive |}];
       fs_current_output := None |}
  = ({| fs_filename := "a.png"; fs_width := 200; fs_height := 100;
        fs_output_list := [{| fs_output_output := 3%positive |}];
        fs_current_output := None |}, "").
Proof.
  destruct (output_handler_adds_once 3%positive
              {| fs_filename := "a.png"; fs_width := 200; fs_height := 100;
                 fs_output_list := [{| fs_output_output := 3%positive |}];
                 fs_current_output := None |})
    as (_ & _ & _ & Hseen & _).
  apply Hseen. reflexivity.
Defined.

(** ** The command line *)

Section CommandLineFacts.
Variable atol : string -> Z.

Lemma main_options_words (pairs : list (bool * string)) (rest : list string)
    (width height : Z) :
  main_options atol (option_words pairs ++ rest) width height
  = main_options atol rest (option_sizes atol pairs (width, height)).1
      (option_sizes atol pairs (width, height)).2.
Proof.
  revert width height.
  induction pairs as [|[k v] pairs IH]; intros width height; [reflexivity|].
  destruct k; cbn -[String.eqb].
  - rewrite String.eqb_refl. apply IH.
  - change (String.eqb "-h" "-w") with false. rewrite String.eqb_refl.
    apply IH.
Qed.

(** The options that [main_options] gets through are pairs. *)
Lemma main_options_done_words (n : nat) :
  forall (opts : list string) (width height width' height' : Z),
    (length opts <= n)%nat ->
    main_options atol opts width height = options_done width' height' ->
    exists pairs, opts = option_words pairs
                  /\ option_sizes atol pairs (width, height) = (width', height').
Proof.
  induction n as [|n IH]; intros opts width height width' height' Hlen Hrun.
  - destruct opts; [|cbn in Hlen; lia].
    exists []. inversion Hrun. auto.
  - destruct opts as [|a rest]; [exists []; inversion Hrun; auto|].
    cbn -[String.eqb] in Hrun.
    destruct (String.eqb_spec a "-w") as [->|Hw].
    + destruct rest as [|v rest']; [discriminate|].
      destruct (IH rest' _ _ _ _ ltac:(cbn in Hlen; lia) Hrun)
        as (pairs & -> & Hsizes).
      exists ((true, v) :: pairs). auto.
    + destruct (String.eqb_spec a "-h") as [->|Hh].
      * destruct rest as [|v rest']; [discriminate|].
        destruct (IH rest' _ _ _ _ ltac:(cbn in Hlen; lia) Hrun)
          as (pairs & -> & Hsizes).
        exists ((false, v) :: pairs). auto.
      * destruct (String.eqb a "--help"); discriminate.
Qed.

(** Where [main_options] leaves through [usage]. *)
Lemma main_options_usage_words (n : nat) :
  forall (opts : list string) (width height : Z) (code : exit_status),
    (length opts <= n)%nat ->
    main_options atol opts width height = options_usage code ->
    exists pairs a rest,
      opts = option_words pairs ++ a :: rest
      /\ ((a = "--help" /\ code = EXIT_SUCCESS)
          \/ (a <> "--help" /\ code = EXIT_FAILURE
              /\ ((a <> "-w" /\ a <> "-h") \/ rest = []))).
Proof.
  induction n as [|n IH]; intros opts width height code Hlen Hrun.
  - destruct opts; [discriminate | cbn in Hlen; lia].
  - destruct opts as [|a rest]; [discriminate|].
    cbn -[String.eqb] in Hrun.
    destruct (String.eqb_spec a "-w") as [->|Hw].
    + destruct rest as [|v rest'].
      * inversion Hrun. exists [], "-w", []. split; [reflexivity|].
        right. split; [discriminate|]. split; [reflexivity|].
        right. reflexivity.
      * destruct (IH rest' _ _ _ ltac:(cbn in Hlen; lia) Hrun)
          as (pairs & a & rest & -> & Hcase).
        exists ((true, v) :: pairs), a, rest. auto.
    + destruct (String.eqb_spec a "-h") as [->|Hh].
      * destruct rest as [|v rest'].
        -- inversion Hrun. exists [], "-h", []. split; [reflexivity|].
           right. split; [discriminate|]. split; [reflexivity|].
           right. reflexivity.
        -- destruct (IH rest' _ _ _ ltac:(cbn in Hlen; lia) Hrun)
             as (pairs & a & rest & -> & Hcase).
           exists ((false, v) :: pairs), a, rest. auto.
      * exists [], a, rest. split; [reflexivity|].
        destruct (String.eqb_spec a "--help") as [->|Hhelp];
          inversion Hrun.
        -- left. split; reflexivity.
        -- right. split; [exact Hhelp|]. split; [reflexivity|].
           left. split; assumption.
Qed.

(** X16: [main] goes on to [display_create] exactly when its first argument
    does not start with [-] and the arguments after it are pairs of [-w] or
    [-h] and a value. The file name is the first argument, and the width and
    the height are the values of the last [-w] and the last [-h], passed
    through [atol] and stored as [int32_t], or 200 and 100 when there is
    none. A value is not looked at as an option. *)
Theorem main_goes_on_iff (argv0 : string) (args : list string)
    (data : fullscreen) (stdout : string) :
  main atol argv0 args = main_display_create data stdout
  <-> exists (file : string) (pairs : list (bool * string)),
        args = file :: option_words pairs
        /\ starts_with_dash file = false
        /\ stdout = "fullscreen.filename: " +:+ file
        /\ data = {| fs_filename := file;
                     fs_width := (option_sizes atol pairs (200, 100)).1;
                     fs_height := (option_sizes atol pairs (200, 100)).2;
                     fs_output_list := [];
                     fs_current_output := None |}.
Proof.
  split.
  - unfold main. destruct args as [|file opts]; [discriminate|].
    destruct (starts_with_dash file) eqn:Hdash; [discriminate|].
    destruct (main_options atol opts 200 100) as [code|w h] eqn:Hopts;
      [discriminate|].
    intros Hrun. inversion Hrun. subst.
    destruct (main_options_done_words (length opts) opts 200 100 w h
                (le_n _) Hopts) as (pairs & -> & Hsizes).
    exists file, pairs. rewrite Hsizes. auto.
  - intros (file & pairs & -> & Hdash & -> & ->).
    unfold main. rewrite Hdash.
    rewrite <- (app_nil_r (option_words pairs)), main_options_words.
    reflexivity.
Qed.

(** X17: [main] leaves through [usage] with [EXIT_SUCCESS] exactly when,
    after a first argument that does not start with [-] and any number of
    [-w] or [-h] pairs, the next argument is [--help]; what follows it is not
    read. With [--help] as the first argument [main] does not reach [usage]:
    it prints the one-line usage and returns 1, as it does for every first
    argument that starts with [-] and when there is no argument. *)
Theorem main_help (argv0 : string) (args : list string) :
  ((exists stdout stderr,
       main atol argv0 args = main_usage EXIT_SUCCESS stdout stderr)
   <-> exists (file : string) (pairs : list (bool * string))
              (rest : list string),
         args = file :: option_words pairs ++ "--help" :: rest
         /\ starts_with_dash file = false)
  /\ ((exists stdout, main atol argv0 args = main_return 1 stdout)
      <-> args = [] \/ exists a rest, args = a :: rest
                                      /\ starts_with_dash a = true)
  /\ (forall rest, main atol argv0 ("--help" :: rest)
                   = main_return 1 ("Usage: " +:+ argv0 +:+ " image..."
                                    +:+ newline)).
Proof.
  split; [|split].
  - split.
    + intros (stdout & stderr & Hrun). unfold main in Hrun.
      destruct args as [|file opts]; [discriminate|].
      destruct (starts_with_dash file) eqn:Hdash; [discriminate|].
      destruct (main_options atol opts 200 100) as [code|w h] eqn:Hopts;
        [|discriminate].
      inversion Hrun. subst.
      destruct (main_options_usage_words (length opts) opts 200 100
                  EXIT_SUCCESS (le_n _) Hopts)
        as (pairs & a & rest & -> & [[-> _]|[_ [Hcode _]]]);
        [|discriminate].
      exists file, pairs, rest. auto.
    + intros (file & pairs & rest & -> & Hdash).
      unfold main. rewrite Hdash, main_options_words.
      eexists. eexists. reflexivity.
  - split.
    + intros (stdout & Hrun). unfold main in Hrun.
      destruct args as [|a rest]; [left; reflexivity|].
      right. exists a, rest. split; [reflexivity|].
      destruct (starts_with_dash a); [reflexivity|].
      destruct (main_options atol rest 200 100); discriminate.
    + intros [->|(a & rest & -> & Hdash)]; unfold main.
      * eexists. reflexivity.
      * rewrite Hdash. eexists. reflexivity.
  - intros rest. reflexivity.
Qed.

(** X18: an argument in option position that is not [-w], [-h] or [--help],
    and a [-w] or [-h] that is the last argument, make [main] leave through
    [usage] with [EXIT_FAILURE], after it has printed the file name; nothing
    else does. *)
Theorem main_usage_failure (argv0 : string) (args : list string) :
  (exists stdout stderr,
      main atol argv0 args = main_usage EXIT_FAILURE stdout stderr)
  <-> exists (file : string) (pairs : list (bool * string)) (a : string)
             (rest : list string),
        args = file :: option_words pairs ++ a :: rest
        /\ starts_with_dash file = false
        /\ a <> "--help"
        /\ ((a <> "-w" /\ a <> "-h") \/ rest = []).
Proof.
  split.
  - intros (stdout & stderr & Hrun). unfold main in Hrun.
    destruct args as [|file opts]; [discriminate|].
    destruct (starts_with_dash file) eqn:Hdash; [discriminate|].
    destruct (main_options atol opts 200 100) as [code|w h] eqn:Hopts;
      [|discriminate].
    inversion Hrun. subst.
    destruct (main_options_usage_words (length opts) opts 200 100
                EXIT_FAILURE (le_n _) Hopts)
      as (pairs & a & rest & -> & [[_ Hcode]|(Hhelp & _ & Hcase)]);
      [discriminate|].
    exists file, pairs, a, rest. auto.
  - intros (file & pairs & a & rest & -> & Hdash & Hhelp & Hcase).
    unfold main. rewrite Hdash, main_options_words.
    assert (Hopts : main_options atol (a :: rest)
                      (option_sizes atol pairs (200, 100)).1
                      (option_sizes atol pairs (200, 100)).2
                    = options_usage EXIT_FAILURE).
    { cbn -[String.eqb].
      destruct (String.eqb_spec a "-w") as [->|Hw];
        [destruct Hcase as [[Hc _]| ->]; [congruence | reflexivity]|].
      destruct (String.eqb_spec a "-h") as [->|Hh];
        [destruct Hcase as [[_ Hc]| ->]; [congruence | reflexivity]|].
      destruct (String.eqb_spec a "--help"); [congruence | reflexivity]. }
    rewrite Hopts. eexists. eexists. reflexivity.
Qed.
End CommandLineFacts.

Lemma main_goes_on_iff_witness :
  main (fun _ => 640) "fullscreen" ["a.png"; "-h"; "1"; "-w"; "--help"]
  = main_display_create
      {| fs_filename := "a.png"; fs_width := 640; fs_height := 640;
         fs_output_list := []; fs_current_output := None |}
      "fullscreen.filename: a.png".
Proof.
  apply (main_goes_on_iff (fun _ => 640)).
  exists "a.png", [(false, "1"); (true, "--help")].
  repeat apply conj; reflexivity.
Defined.

Lemma main_help_witness :
  (exists stdout stderr,
      main (fun _ => 640) "fullscreen" ["a.png"; "-w"; "1"; "--help"; "x"]
      = main_usage EXIT_SUCCESS stdout stderr)
  /\ exists stdout,
       main (fun _ => 640) "fullscreen" ["--help"] = main_return 1 stdout.
Proof.
  split.
  - apply (main_help (fun _ => 640)).
    exists "a.png", [(true, "1")], ["x"]. split; reflexivity.
  - apply (main_help (fun _ => 640)).
    right. exists "--help", []. split; reflexivity.
Defined.

Lemma main_usage_failure_witness :
  exists stdout stderr,
    main (fun _ => 640) "fullscreen" ["a.png"; "-w"; "1"; "-h"]
    = main_usage EXIT_FAILURE stdout stderr.
Proof.
  apply (main_usage_failure (fun _ => 640)).
  exists "a.png", [(true, "1")], "-h", [].
  repeat apply conj; try reflexivity; [discriminate | right; reflexivity].
Defined.
